(** * binance-poller: the publishing / storage subsystem

    A shallow embedding of [storage/core.py], [publishing/parsing.py] and
    [publishing/core.py], with the properties of the specification stated
    and proved over it.

    Conventions.
    - Python [str] is [string]; a character stands for the code point of the
      same number (U+0000 .. U+00FF).
    - Python [int] is [Z].  Binary floating-point numbers are not part of
      the value model.
    - A Python [dict] that the program iterates over is an insertion-ordered
      association list with unique keys ([PyDict]); the dictionaries of the
      table store, which the subsystem only reads by key, are [gmap]s.
    - A raised exception is a result [Raise e]; mutations done before the
      raise stay in the state, as in Python.
    - Disk input and output succeeds; log messages are left out.
    - [json.dumps], [json.loads], [os.path.join] and [strftime] are modelled
      after CPython on POSIX, with their default arguments.
    - A file is known by the text of its path, as in a directory without
      links whose names are told apart as written: what is said of the
      files of several topics is said for topics without ['/'], whose
      files are the entries [<topic>.log] of the base directory.
    - The text written to a handle is in its file after the handle's flush
      at the latest.  The runtime also writes a buffer through by itself
      once it is full, after some kilobytes; the model has no such write.
    - The limits of the interpreter (the digits of an integer that is
      turned into text, the depth of recursion) are not part of the
      functions; [Document.within_limits] states them where a statement
      needs them. *)

From stdpp Require Import gmap strings list fin_maps.
From Stdlib Require Import ZArith Ascii String DecimalString.
From Stdlib Require DecimalFacts DecimalPos.

Open Scope string_scope.
Open Scope Z_scope.

(** ** Python values *)

#[local] Set Warnings "-register-all".

(** The documents the poller receives are decoded JSON: [None], booleans,
    integers, strings, lists and string-keyed dictionaries. *)
Inductive value : Type :=
| VNone
| VBool (b : bool)
| VInt (n : Z)
| VStr (s : string)
| VList (l : list value)
| VDict (d : list (string * value)).

(** Hashable values in the normal form Python's [==] / [hash] induce on
    them: [True == 1] and [False == 0] are the same dictionary key. *)
Inductive hkey : Type :=
| KNone
| KNum (n : Z)
| KStr (s : string).

#[global] Instance hkey_eq_dec : EqDecision hkey.
Proof. solve_decision. Defined.

Definition hkey_to_sum (k : hkey) : unit + (Z + string) :=
  match k with
  | KNone => inl tt
  | KNum n => inr (inl n)
  | KStr s => inr (inr s)
  end.

Definition hkey_of_sum (x : unit + (Z + string)) : hkey :=
  match x with
  | inl _ => KNone
  | inr (inl n) => KNum n
  | inr (inr s) => KStr s
  end.

#[global] Instance hkey_countable : Countable hkey.
Proof.
  apply (inj_countable' hkey_to_sum hkey_of_sum).
  intros []; reflexivity.
Defined.

(** Python exceptions the subsystem can meet on decoded documents. *)
Inductive exn : Type :=
| KeyError (k : string)
| TypeError
| AttributeError.

Inductive res (A : Type) : Type :=
| Ok (a : A)
| Raise (e : exn).
Arguments Ok {A} a.
Arguments Raise {A} e.

#[global] Instance res_ret : MRet res := fun A a => Ok a.

#[global] Instance res_bind : MBind res := fun A B f r =>
  match r with
  | Ok a => f a
  | Raise e => Raise e
  end.

(** ** Insertion-ordered dictionaries *)

Module PyDict.
Section Defs.
Context {K : Type} `{EqDecision K} {V : Type}.

(** [d.get(k)] as an option; the first binding is the only one in a
    well-formed dictionary. *)
Fixpoint get (d : list (K * V)) (k : K) : option V :=
  match d with
  | [] => None
  | (k', v) :: d' => if decide (k = k') then Some v else get d' k
  end.

(** [d[k] = v]: an existing key keeps its position, a new key goes last. *)
Fixpoint set (d : list (K * V)) (k : K) (v : V) : list (K * V) :=
  match d with
  | [] => [(k, v)]
  | (k', v') :: d' =>
      if decide (k = k') then (k, v) :: d' else (k', v') :: set d' k v
  end.

(** [k in d] *)
Definition mem (d : list (K * V)) (k : K) : bool :=
  match get d k with Some _ => true | None => false end.

Definition keys (d : list (K * V)) : list K := map fst d.
End Defs.
End PyDict.

(** ** storage/core.py: [InMemoryKeyValueStorage] *)

Module Storage.

Abbreviation table := (gmap hkey value).
(** [self.storage]: table name -> (record key -> value). *)
Abbreviation storage := (gmap string (gmap hkey value)).

(** [__init__]: [self.storage = {}] *)
Definition init : storage := ∅.

(** [write]: create the table when it is not there, then bind the key. *)
Definition write (t : string) (k : hkey) (v : value) (s : storage) : storage :=
  let s1 := match s !! t with
            | Some _ => s
            | None => <[t := (∅ : table)]> s
            end in
  match s1 !! t with
  | Some tbl => <[t := <[k := v]> tbl]> s1
  | None => s1
  end.

(** [read]: [self.storage.get(table, {}).get(key, None)] *)
Definition read (t : string) (k : hkey) (s : storage) : value :=
  default VNone (default (∅ : table) (s !! t) !! k).

(** [delete]: only when both the table and the key are there. *)
Definition delete (t : string) (k : hkey) (s : storage) : storage :=
  match s !! t with
  | Some tbl =>
      match tbl !! k with
      | Some _ => <[t := base.delete k tbl]> s
      | None => s
      end
  | None => s
  end.

(** [clear_table]: [self.storage[table].clear()] when the table is there. *)
Definition clear_table (t : string) (s : storage) : storage :=
  match s !! t with
  | Some _ => <[t := (∅ : table)]> s
  | None => s
  end.

(** [read_all]: [self.storage.get(table, None)]; [None] is "absent". *)
Definition read_all (t : string) (s : storage) : option table := s !! t.

(** The mutating calls of the interface, for statements about histories. *)
Inductive op : Type :=
| Write (t : string) (k : hkey) (v : value)
| Delete (t : string) (k : hkey)
| ClearTable (t : string).

Definition apply (o : op) (s : storage) : storage :=
  match o with
  | Write t k v => write t k v s
  | Delete t k => delete t k s
  | ClearTable t => clear_table t s
  end.

(** Calls are applied oldest first. *)
Definition run (ops : list op) (s : storage) : storage :=
  fold_left (fun s o => apply o s) ops s.

Definition writes_to (t : string) (o : op) : bool :=
  match o with
  | Write t' _ _ => bool_decide (t' = t)
  | _ => false
  end.

(** The entries of a table bound to key [k], as a list of pairs. *)
Definition entries_for (k : hkey) (tbl : table) : list (hkey * value) :=
  List.filter (fun p => bool_decide (p.1 = k)) (map_to_list tbl).

End Storage.

(** ** publishing/parsing.py *)

Module Parsing.

(** A decoded JSON object: string keys, in document order. *)
Abbreviation dict := (list (string * value)).

(** [v.get(k, dflt)] on an arbitrary value: only [dict] has the method. *)
Definition py_get (v : value) (k : string) (dflt : value) : res value :=
  match v with
  | VDict d => Ok (default dflt (PyDict.get d k))
  | _ => Raise AttributeError
  end.

Definition chars (s : string) : list value :=
  map (fun c => VStr (String c EmptyString)) (list_ascii_of_string s).

(** The sequence a [for x in v] loop runs over. *)
Definition py_iter (v : value) : res (list value) :=
  match v with
  | VList l => Ok l
  | VDict d => Ok (map (fun kv => VStr kv.1) d)
  | VStr s => Ok (chars s)
  | VNone | VBool _ | VInt _ => Raise TypeError
  end.

(** [v == "literal"] *)
Definition py_eq_str (v : value) (s : string) : bool :=
  match v with
  | VStr s' => bool_decide (s' = s)
  | _ => false
  end.

(** [hash(v)], needed to use [v] as a dictionary key. *)
Definition py_hash (v : value) : res hkey :=
  match v with
  | VNone => Ok KNone
  | VBool b => Ok (KNum (if b then 1 else 0))
  | VInt n => Ok (KNum n)
  | VStr s => Ok (KStr s)
  | VList _ | VDict _ => Raise TypeError
  end.

(** A [for] loop whose body may raise; [acc] is the loop's local state. *)
Fixpoint for_each {A S : Type} (body : S -> A -> res S) (l : list A) (acc : S)
  : res S :=
  match l with
  | [] => Ok acc
  | x :: l' => acc' ← body acc x; for_each body l' acc'
  end.

(** The six locals the filter loop assigns. *)
Record filter_vars : Type := FilterVars {
  tick_size : value;
  min_price : value;
  max_price : value;
  min_qty : value;
  max_qty : value;
  step_size : value
}.

Definition filter_vars_init : filter_vars :=
  FilterVars VNone VNone VNone VNone VNone VNone.

(** Body of [for filter_info in symbol_info.get("filters", [])]. *)
Definition filter_body (fv : filter_vars) (filter_info : value) : res filter_vars :=
  ft ← py_get filter_info "filterType" VNone;
  if py_eq_str ft "PRICE_FILTER" then
    minp ← py_get filter_info "minPrice" VNone;
    maxp ← py_get filter_info "maxPrice" VNone;
    tick ← py_get filter_info "tickSize" VNone;
    Ok (FilterVars tick minp maxp (min_qty fv) (max_qty fv) (step_size fv))
  else
    ft' ← py_get filter_info "filterType" VNone;
    if py_eq_str ft' "LOT_SIZE" then
      minq ← py_get filter_info "minQty" VNone;
      maxq ← py_get filter_info "maxQty" VNone;
      step ← py_get filter_info "stepSize" VNone;
      Ok (FilterVars (tick_size fv) (min_price fv) (max_price fv) minq maxq step)
    else Ok fv.

(** The record stored for one symbol. *)
Definition symbol_record (symbol base_asset quote_asset status : value)
    (fv : filter_vars) : value :=
  VDict [("symbol", symbol);
         ("baseAsset", base_asset);
         ("quoteAsset", quote_asset);
         ("tickSize", tick_size fv);
         ("minPrice", min_price fv);
         ("maxPrice", max_price fv);
         ("lotSize", VDict [("minQty", min_qty fv);
                            ("maxQty", max_qty fv);
                            ("stepSize", step_size fv)]);
         ("status", status)].

(** Body of [for symbol_info in response.get("symbols", [])]. *)
Definition symbol_body (symbol_metadata : list (hkey * value)) (symbol_info : value)
  : res (list (hkey * value)) :=
  symbol ← py_get symbol_info "symbol" VNone;
  status ← py_get symbol_info "status" VNone;
  base_asset ← py_get symbol_info "baseAsset" VNone;
  quote_asset ← py_get symbol_info "quoteAsset" VNone;
  filters ← py_get symbol_info "filters" (VList []);
  filter_infos ← py_iter filters;
  fv ← for_each filter_body filter_infos filter_vars_init;
  k ← py_hash symbol;
  Ok (PyDict.set symbol_metadata k
        (symbol_record symbol base_asset quote_asset status fv)).

(** [parse_symbols_info(response)] *)
Definition parse_symbols_info (response : dict) : res (list (hkey * value)) :=
  symbol_infos ← py_iter (default (VList []) (PyDict.get response "symbols"));
  for_each symbol_body symbol_infos [].

End Parsing.

(** ** publishing/core.py: [KeyValueStorePubSub] *)

Module KeyValueStorePubSub.
Import Parsing.

(** [for key, value in items: self.key_value_store.write(table, key, value)] *)
Definition write_items (t : string) (items : list (hkey * value))
    (s : Storage.storage) : Storage.storage :=
  fold_left (fun s kv => Storage.write t kv.1 kv.2 s) items s.

(** [message.items()] with the keys as dictionary keys of the store. *)
Definition items (message : dict) : list (hkey * value) :=
  map (fun kv => (KStr kv.1, kv.2)) message.

(** The first [if] of [publish]. *)
Definition publish_exchange_info (topic : string) (message : dict)
    (s : Storage.storage) : res unit * Storage.storage :=
  if decide (topic = "exchange_info") then
    match parse_symbols_info message with
    | Raise e => (Raise e, s)
    | Ok symbols_info =>
        let s1 := write_items "symbols" symbols_info s in
        match PyDict.get message "rateLimits" with
        | None => (Raise (KeyError "rateLimits"), s1)
        | Some rate_limits =>
            (Ok tt, Storage.write topic (KStr "rateLimits") rate_limits s1)
        end
    end
  else (Ok tt, s).

(** The second [if] of [publish]. *)
Definition publish_status_or_account (topic : string) (message : dict)
    (s : Storage.storage) : res unit * Storage.storage :=
  if bool_decide (topic ∈ ["system_status"; "account_info"]) then
    (Ok tt, write_items topic (items message) s)
  else (Ok tt, s).

(** [publish(topic, message)]: the result and the store it leaves. *)
Definition publish (topic : string) (message : dict) (s : Storage.storage)
  : res unit * Storage.storage :=
  match publish_exchange_info topic message s with
  | (Ok _, s1) => publish_status_or_account topic message s1
  | (Raise e, s1) => (Raise e, s1)
  end.

(** [close]: [pass] *)
Definition close (s : Storage.storage) : Storage.storage := s.

(** The example response of [parsing.py]. *)
Definition price_filter : value :=
  VDict [("filterType", VStr "PRICE_FILTER");
         ("minPrice", VStr "10000.00000000");
         ("maxPrice", VStr "100000.00000000");
         ("tickSize", VStr "0.01000000")].

Definition lot_size : value :=
  VDict [("filterType", VStr "LOT_SIZE");
         ("minQty", VStr "0.00100000");
         ("maxQty", VStr "100.00000000");
         ("stepSize", VStr "0.00100000")].

Definition btcusdt (status base_asset quote_asset : value) : value :=
  VDict [("symbol", VStr "BTCUSDT");
         ("status", status);
         ("baseAsset", base_asset);
         ("quoteAsset", quote_asset);
         ("filters", VList [price_filter; lot_size])].

Definition sample_response : dict :=
  [("symbols", VList [btcusdt (VStr "TRADING") (VStr "BTC") (VStr "USDT")])].

Definition btcusdt_record (status base_asset quote_asset : value) : value :=
  VDict [("symbol", VStr "BTCUSDT");
         ("baseAsset", base_asset);
         ("quoteAsset", quote_asset);
         ("tickSize", VStr "0.01000000");
         ("minPrice", VStr "10000.00000000");
         ("maxPrice", VStr "100000.00000000");
         ("lotSize", VDict [("minQty", VStr "0.00100000");
                            ("maxQty", VStr "100.00000000");
                            ("stepSize", VStr "0.00100000")]);
         ("status", status)].

End KeyValueStorePubSub.

(** ** [json.dumps] with its default arguments *)

Module Json.

Definition dquote : ascii := "034"%char.
Definition backslash : ascii := "092"%char.
Definition newline : ascii := "010"%char.

Definition hex_digit (n : N) : ascii :=
  match n with
  | 0 => "0" | 1 => "1" | 2 => "2" | 3 => "3" | 4 => "4" | 5 => "5"
  | 6 => "6" | 7 => "7" | 8 => "8" | 9 => "9" | 10 => "a" | 11 => "b"
  | 12 => "c" | 13 => "d" | 14 => "e" | _ => "f"
  end%N%char.

(** One character of a string under [ensure_ascii=True]: the short
    escapes, printable ASCII as it is, the rest as [\u00xx]. *)
Definition escape_char (c : ascii) : string :=
  let n := N_of_ascii c in
  if (n =? 34)%N then String backslash (String dquote "")
  else if (n =? 92)%N then String backslash (String backslash "")
  else if (n =? 8)%N then String backslash "b"
  else if (n =? 12)%N then String backslash "f"
  else if (n =? 10)%N then String backslash "n"
  else if (n =? 13)%N then String backslash "r"
  else if (n =? 9)%N then String backslash "t"
  else if ((32 <=? n) && (n <=? 126))%N then String c ""
  else String backslash
         ("u00" +:+ String (hex_digit (n / 16)) (String (hex_digit (n mod 16)) "")).

Fixpoint escape (s : string) : string :=
  match s with
  | EmptyString => ""
  | String c s' => escape_char c +:+ escape s'
  end.

(** [encode_basestring_ascii] *)
Definition encode_string (s : string) : string :=
  String dquote (escape s +:+ String dquote "").

(** [int.__repr__] *)
Definition repr_int (n : Z) : string :=
  match n with
  | Z0 => "0"
  | Zpos p => DecimalString.NilEmpty.string_of_uint (Pos.to_uint p)
  | Zneg p => String "-" (DecimalString.NilEmpty.string_of_uint (Pos.to_uint p))
  end.

(** [sep.join(l)] *)
Fixpoint join (sep : string) (l : list string) : string :=
  match l with
  | [] => ""
  | [x] => x
  | x :: l' => x +:+ sep +:+ join sep l'
  end.

(** [json.dumps(v)]: item separator [", "], key separator [": "],
    keys in dictionary order. *)
Fixpoint dumps (v : value) : string :=
  match v with
  | VNone => "null"
  | VBool true => "true"
  | VBool false => "false"
  | VInt n => repr_int n
  | VStr s => encode_string s
  | VList l => "[" +:+ join ", " (map dumps l) +:+ "]"
  | VDict d =>
      "{" +:+ join ", " (map (fun kv => encode_string kv.1 +:+ ": " +:+ dumps kv.2) d)
          +:+ "}"
  end.

End Json.

(** ** [datetime.now().strftime("%Y-%m-%d %H:%M:%S")] *)

Module Datetime.

Record datetime : Type := {
  year : N; month : N; day : N;
  hour : N; minute : N; second : N
}.


Definition digit (n : N) : ascii := ascii_of_N (48 + n mod 10).

Definition two_digits (n : N) : string :=
  String (digit (n / 10)) (String (digit n) "").

Definition four_digits (n : N) : string :=
  String (digit (n / 1000)) (String (digit (n / 100))
    (String (digit (n / 10)) (String (digit n) ""))).

Definition strftime (d : datetime) : string :=
  four_digits (year d) +:+ "-" +:+ two_digits (month d) +:+ "-"
    +:+ two_digits (day d) +:+ " " +:+ two_digits (hour d) +:+ ":"
    +:+ two_digits (minute d) +:+ ":" +:+ two_digits (second d).

Definition is_digit (c : ascii) : bool :=
  ((48 <=? N_of_ascii c) && (N_of_ascii c <=? 57))%N.


End Datetime.

(** ** publishing/core.py: [FilePubSub] *)

Module FilePubSub.

(** [os.path.join(a, b)] on POSIX. *)
Definition starts_with_sep (s : string) : bool :=
  match s with
  | String c _ => bool_decide (c = "/"%char)
  | EmptyString => false
  end.

Fixpoint ends_with_sep (s : string) : bool :=
  match s with
  | EmptyString => false
  | String c EmptyString => bool_decide (c = "/"%char)
  | String _ s' => ends_with_sep s'
  end.

Definition path_join (a b : string) : string :=
  if starts_with_sep b then b
  else if bool_decide (a = "") || ends_with_sep a then a +:+ b
  else a +:+ "/" +:+ b.

(** A text file opened with mode ['a']: where it appends, and the text
    written to the handle since the last flush.  The runtime holds that
    text in the handle's buffer; a reader of the file sees it after the
    flush. *)
Record TextIO : Type := {
  file_path : string;
  pending : string
}.

(** The periodic flush task. *)
Inductive task : Type := Running | Cancelled.

(** The object and the files under it.  [flush_interval] only sets when
    the task runs [flush_all]; the runs of the task are the [TimerFlush]
    steps below, between two calls of the producer. *)
Record t : Type := {
  base_dir : string;
  file_handles : list (string * TextIO);
  write_counts : gmap string Z;
  flush_limit : Z;
  flush_task : task;
  files : gmap string string
}.

(** [__init__], in a file system [fs] where [base_dir] exists. *)
Definition init (base : string) (limit : Z) (fs : gmap string string) : t :=
  {| base_dir := base; file_handles := []; write_counts := ∅;
     flush_limit := limit; flush_task := Running; files := fs |}.

(** [open(path, 'a')]: the file is created empty when it is not there. *)
Definition open_append (path : string) (fs : gmap string string)
  : gmap string string :=
  match fs !! path with
  | Some _ => fs
  | None => <[path := ""]> fs
  end.

(** [_get_file_handle] *)
Definition _get_file_handle (topic : string) (p : t) : TextIO * t :=
  match PyDict.get (file_handles p) topic with
  | Some h => (h, p)
  | None =>
      let path := path_join (base_dir p) (topic +:+ ".log") in
      let h := {| file_path := path; pending := "" |} in
      (h, {| base_dir := base_dir p;
             file_handles := PyDict.set (file_handles p) topic h;
             write_counts := <[topic := 0]> (write_counts p);
             flush_limit := flush_limit p;
             flush_task := flush_task p;
             files := open_append path (files p) |})
  end.

(** [handle.flush()]: the pending text goes to the end of the file. *)
Definition flush_handle (h : TextIO) (fs : gmap string string)
  : TextIO * gmap string string :=
  ({| file_path := file_path h; pending := "" |},
   <[file_path h := default "" (fs !! file_path h) +:+ pending h]> fs).

(** [flush(topic)] *)
Definition flush (topic : string) (p : t) : t :=
  match PyDict.get (file_handles p) topic with
  | Some h =>
      let '(h', fs') := flush_handle h (files p) in
      {| base_dir := base_dir p;
         file_handles := PyDict.set (file_handles p) topic h';
         write_counts := <[topic := 0]> (write_counts p);
         flush_limit := flush_limit p;
         flush_task := flush_task p;
         files := fs' |}
  | None => p
  end.

(** The line [publish] writes. *)
Definition log_line (now : Datetime.datetime) (message : Parsing.dict) : string :=
  Datetime.strftime now +:+ " - " +:+ Json.dumps (VDict message)
    +:+ String Json.newline "".

(** [publish(topic, message)] at wall-clock time [now]. *)
Definition publish (topic : string) (message : Parsing.dict)
    (now : Datetime.datetime) (p : t) : res unit * t :=
  let '(h, p1) := _get_file_handle topic p in
  let h' := {| file_path := file_path h;
               pending := pending h +:+ log_line now message |} in
  let handles := PyDict.set (file_handles p1) topic h' in
  match write_counts p1 !! topic with
  | None =>
      (Raise (KeyError topic),
       {| base_dir := base_dir p1; file_handles := handles;
          write_counts := write_counts p1; flush_limit := flush_limit p1;
          flush_task := flush_task p1; files := files p1 |})
  | Some c =>
      let p2 := {| base_dir := base_dir p1; file_handles := handles;
                   write_counts := <[topic := c + 1]> (write_counts p1);
                   flush_limit := flush_limit p1;
                   flush_task := flush_task p1; files := files p1 |} in
      (Ok tt, if bool_decide (flush_limit p2 <= c + 1) then flush topic p2 else p2)
  end.

(** One turn of the loop in [flush_all]. *)
Definition flush_all_body (acc : list (string * TextIO) * gmap string Z
                                 * gmap string string)
    (entry : string * TextIO)
  : list (string * TextIO) * gmap string Z * gmap string string :=
  let '(handles, counts, fs) := acc in
  let '(h', fs') := flush_handle entry.2 fs in
  (PyDict.set handles entry.1 h', <[entry.1 := 0]> counts, fs').

(** [flush_all], the body of the periodic task. *)
Definition flush_all (p : t) : t :=
  let '(handles, counts, fs) :=
    fold_left flush_all_body (file_handles p)
      (file_handles p, write_counts p, files p) in
  {| base_dir := base_dir p; file_handles := handles; write_counts := counts;
     flush_limit := flush_limit p; flush_task := flush_task p; files := fs |}.

(** [handle.close()] for each handle: what it still holds is flushed. *)
Definition close_handles (handles : list (string * TextIO))
    (fs : gmap string string) : gmap string string :=
  fold_left (fun fs entry => (flush_handle entry.2 fs).2) handles fs.

(** The body of [async def close]. *)
Definition close_body (p : t) : t :=
  {| base_dir := base_dir p; file_handles := []; write_counts := ∅;
     flush_limit := flush_limit p; flush_task := Cancelled;
     files := close_handles (file_handles p) (files p) |}.

(** Calling an [async def] gives a coroutine object; its body runs when
    the object is awaited, and not before. *)
Record coroutine : Type := Coroutine { body : t -> t }.

Definition await (c : coroutine) (p : t) : t := body c p.

(** [close()] *)
Definition close : coroutine := Coroutine close_body.

(** The topic's file as it reads once everything written is flushed. *)
Definition file_text (topic : string) (p : t) : string :=
  match PyDict.get (file_handles p) topic with
  | Some h => default "" (files p !! file_path h) +:+ pending h
  | None =>
      default "" (files p !! path_join (base_dir p) (topic +:+ ".log"))
  end.

(** What a reader of the topic's file sees now. *)
Definition visible_text (topic : string) (p : t) : string :=
  match PyDict.get (file_handles p) topic with
  | Some h => default "" (files p !! file_path h)
  | None =>
      default "" (files p !! path_join (base_dir p) (topic +:+ ".log"))
  end.

(** [self.write_counts[topic]], 0 for a topic not opened yet. *)
Definition pending_count (topic : string) (p : t) : Z :=
  default 0 (write_counts p !! topic).

(** What can happen to the sink between construction and [close]. *)
Inductive event : Type :=
| Publish (topic : string) (message : Parsing.dict) (now : Datetime.datetime)
| Flush (topic : string)
| TimerFlush.

Definition step (e : event) (p : t) : t :=
  match e with
  | Publish topic message now => (publish topic message now p).2
  | Flush topic => flush topic p
  | TimerFlush => flush_all p
  end.

Definition run (events : list event) (p : t) : t :=
  fold_left (fun p e => step e p) events p.

End FilePubSub.

(** ** publishing/core.py: [InMemoryWithLogPublisher] *)

Module InMemoryWithLogPublisher.

Record t : Type := {
  in_memory : Storage.storage;
  file_backed : FilePubSub.t
}.

(** [publish]: the file sink first, then the table sink; an exception of
    the first call leaves the second undone. *)
Definition publish (topic : string) (message : Parsing.dict)
    (now : Datetime.datetime) (p : t) : res unit * t :=
  match FilePubSub.publish topic message now (file_backed p) with
  | (Raise e, fb) => (Raise e, {| in_memory := in_memory p; file_backed := fb |})
  | (Ok _, fb) =>
      let '(r, kv) := KeyValueStorePubSub.publish topic message (in_memory p) in
      (r, {| in_memory := kv; file_backed := fb |})
  end.

(** [close]: a plain [def].  [self.file_backed.close()] makes the
    coroutine object and drops it; nothing awaits it. *)
Definition close (p : t) : t :=
  let kv := KeyValueStorePubSub.close (in_memory p) in
  let _coro := FilePubSub.close in
  {| in_memory := kv; file_backed := file_backed p |}.

End InMemoryWithLogPublisher.

(** Histories of the file sink used in the statements. *)

Module FilePubSubRuns.
Import FilePubSub.

(** Successive [publish] calls on one topic. *)
Definition publishes (topic : string)
    (msgs : list (Parsing.dict * Datetime.datetime)) : list event :=
  map (fun m => Publish topic m.1 m.2) msgs.

(** The lines those calls write, in call order. *)
Definition lines (msgs : list (Parsing.dict * Datetime.datetime)) : string :=
  foldr (fun m acc => log_line m.2 m.1 +:+ acc) "" msgs.

(** The two dictionaries of the sink have the same keys. *)
Definition keys_agree (p : t) : Prop :=
  ∀ topic, is_Some (PyDict.get (file_handles p) topic)
           ↔ is_Some (write_counts p !! topic).

(** Every counter is at least 0 and below the limit. *)
Definition counts_bounded (p : t) : Prop :=
  ∀ topic c, write_counts p !! topic = Some c → 0 ≤ c < flush_limit p.


End FilePubSubRuns.

(** A concrete run used in the statements about shutdown. *)

Module Example.

Definition now0 : Datetime.datetime :=
  {| Datetime.year := 2024; Datetime.month := 10; Datetime.day := 3;
     Datetime.hour := 9; Datetime.minute := 5; Datetime.second := 7 |}.

Definition status_message : Parsing.dict := [("status", VInt 0); ("msg", VStr "normal")].

(** The publisher as the poller builds it: [FilePubSub(flush_limit=10)]
    over an empty output directory and an empty store. *)
Definition fresh : InMemoryWithLogPublisher.t :=
  {| InMemoryWithLogPublisher.in_memory := Storage.init;
     InMemoryWithLogPublisher.file_backed := FilePubSub.init "output" 10 ∅ |}.

(** ... after one [publish] on ['system_status']. *)
Definition after_one_publish : InMemoryWithLogPublisher.t :=
  (InMemoryWithLogPublisher.publish "system_status" status_message now0 fresh).2.

End Example.

(** ** [json.loads] with its default arguments

    The decoder follows [json.decoder] and [json.scanner]: [scan_once]
    dispatches on the first character, [parse_elements] and [parse_members]
    are the loops of [JSONArray] and [JSONObject], [scanstring] reads a
    string after its opening quote.  [None] stands for [JSONDecodeError],
    and for the two results the value model has no room for: a number with
    a fraction or an exponent, and a [\u] escape above U+00FF.  Recursion
    is on a fuel that [loads] sets from the length of the text. *)

Module JsonDecode.

Definition is_ws (c : ascii) : bool :=
  match c with
  | " " | "009" | "010" | "013" => true
  | _ => false
  end%char.

Fixpoint skip_ws (s : string) : string :=
  match s with
  | String c s' => if is_ws c then skip_ws s' else s
  | EmptyString => s
  end.

Definition hex_value (c : ascii) : option N :=
  let n := N_of_ascii c in
  if ((48 <=? n) && (n <=? 57))%N then Some (n - 48)%N
  else if ((97 <=? n) && (n <=? 102))%N then Some (n - 87)%N
  else if ((65 <=? n) && (n <=? 70))%N then Some (n - 55)%N
  else None.

Definition hex4 (h1 h2 h3 h4 : ascii) : option N :=
  match hex_value h1, hex_value h2, hex_value h3, hex_value h4 with
  | Some a, Some b, Some c, Some d => Some (((a * 16 + b) * 16 + c) * 16 + d)%N
  | _, _, _, _ => None
  end.

(** The [BACKSLASH] table. *)
Definition unescape (e : ascii) : option ascii :=
  match e with
  | "034" => Some "034" | "\" => Some "\" | "/" => Some "/"
  | "b" => Some "008" | "f" => Some "012" | "n" => Some "010"
  | "r" => Some "013" | "t" => Some "009"
  | _ => None
  end%char.

Definition prepend (c : ascii) (r : option (string * string))
  : option (string * string) :=
  match r with
  | Some (body, rest) => Some (String c body, rest)
  | None => None
  end.

(** [scanstring] in strict mode, from just after the opening quote: the
    decoded string and the text after the closing quote. *)
Fixpoint scanstring (s : string) : option (string * string) :=
  match s with
  | EmptyString => None
  | String c s1 =>
      match c with
      | "034"%char => Some ("", s1)
      | "\"%char =>
          match s1 with
          | EmptyString => None
          | String "u" (String h1 (String h2 (String h3 (String h4 s2)))) =>
              match hex4 h1 h2 h3 h4 with
              | Some n =>
                  if (n <? 256)%N then prepend (ascii_of_N n) (scanstring s2)
                  else None
              | None => None
              end
          | String "u" _ => None
          | String e s2 =>
              match unescape e with
              | Some c' => prepend c' (scanstring s2)
              | None => None
              end
          end
      | _ => if (N_of_ascii c <? 32)%N then None else prepend c (scanstring s1)
      end
  end.

Definition digit_of (c : ascii) : option (Decimal.uint -> Decimal.uint) :=
  match c with
  | "0" => Some Decimal.D0 | "1" => Some Decimal.D1 | "2" => Some Decimal.D2
  | "3" => Some Decimal.D3 | "4" => Some Decimal.D4 | "5" => Some Decimal.D5
  | "6" => Some Decimal.D6 | "7" => Some Decimal.D7 | "8" => Some Decimal.D8
  | "9" => Some Decimal.D9
  | _ => None
  end%char.

Definition is_digit (c : ascii) : bool :=
  match digit_of c with Some _ => true | None => false end.

(** The longest run of digits at the head of [s], and what follows. *)
Fixpoint scan_digits (s : string) : Decimal.uint * string :=
  match s with
  | String c s' =>
      match digit_of c with
      | Some d => let '(ds, rest) := scan_digits s' in (d ds, rest)
      | None => (Decimal.Nil, s)
      end
  | EmptyString => (Decimal.Nil, s)
  end.

(** The integer part of [NUMBER_RE]: [0], or a run of digits that does
    not start with [0]. *)
Definition scan_integer (s : string) : option (Z * string) :=
  match s with
  | String "0" s' => Some (0, s')
  | String c _ =>
      if is_digit c then
        let '(ds, rest) := scan_digits s in Some (Z.of_uint ds, rest)
      else None
  | EmptyString => None
  end.

(** Whether the text goes on with the fraction or the exponent of
    [NUMBER_RE]; the number is then a float. *)
Definition has_frac (s : string) : bool :=
  match s with
  | String "." (String c _) => is_digit c
  | _ => false
  end.

Definition has_exp (s : string) : bool :=
  match s with
  | String e s' =>
      match e with
      | "e" | "E" =>
          match s' with
          | String sign (String c _) =>
              is_digit sign
              || (match sign with "+" | "-" => is_digit c | _ => false end)
          | String c EmptyString => is_digit c
          | EmptyString => false
          end
      | _ => false
      end%char
  | EmptyString => false
  end.

Definition scan_number (s : string) : option (value * string) :=
  let '(negative, digits) :=
    match s with
    | String "-" s' => (true, s')
    | _ => (false, s)
    end in
  match scan_integer digits with
  | Some (n, rest) =>
      if has_frac rest || has_exp rest then None
      else Some (VInt (if negative then - n else n), rest)
  | None => None
  end.

Fixpoint strip_prefix (prefix s : string) : option string :=
  match prefix, s with
  | EmptyString, _ => Some s
  | String a prefix', String b s' =>
      if Ascii.eqb a b then strip_prefix prefix' s' else None
  | String _ _, EmptyString => None
  end.

(** [dict(pairs)]: a repeated key keeps its first place and takes the
    last value. *)
Definition dict_of_pairs (pairs : list (string * value)) : list (string * value) :=
  fold_left (fun d kv => PyDict.set d kv.1 kv.2) pairs [].

Fixpoint scan_once (fuel : nat) (s : string) : option (value * string) :=
  match fuel with
  | O => None
  | S fuel' =>
      match s with
      | EmptyString => None
      | String c s' =>
          match c with
          | "034" =>
              match scanstring s' with
              | Some (str, rest) => Some (VStr str, rest)
              | None => None
              end
          | "{" =>
              match skip_ws s' with
              | String "}" rest => Some (VDict [], rest)
              | String "034" rest =>
                  match parse_members fuel' rest with
                  | Some (pairs, rest') => Some (VDict (dict_of_pairs pairs), rest')
                  | None => None
                  end
              | _ => None
              end
          | "[" =>
              match skip_ws s' with
              | String "]" rest => Some (VList [], rest)
              | s'' =>
                  match parse_elements fuel' s'' with
                  | Some (values, rest) => Some (VList values, rest)
                  | None => None
                  end
              end
          | "n" =>
              match strip_prefix "null" s with
              | Some rest => Some (VNone, rest)
              | None => None
              end
          | "t" =>
              match strip_prefix "true" s with
              | Some rest => Some (VBool true, rest)
              | None => None
              end
          | "f" =>
              match strip_prefix "false" s with
              | Some rest => Some (VBool false, rest)
              | None => None
              end
          | _ => scan_number s
          end%char
      end
  end

(** The loop of [JSONArray], from the first character of a value. *)
with parse_elements (fuel : nat) (s : string) : option (list value * string) :=
  match fuel with
  | O => None
  | S fuel' =>
      match scan_once fuel' s with
      | Some (v, rest) =>
          match skip_ws rest with
          | String "]" rest' => Some ([v], rest')
          | String "," rest' =>
              match parse_elements fuel' (skip_ws rest') with
              | Some (values, rest'') => Some (v :: values, rest'')
              | None => None
              end
          | _ => None
          end%char
      | None => None
      end
  end

(** The loop of [JSONObject], from just after the opening quote of a key. *)
with parse_members (fuel : nat) (s : string)
  : option (list (string * value) * string) :=
  match fuel with
  | O => None
  | S fuel' =>
      match scanstring s with
      | Some (key, rest) =>
          match skip_ws rest with
          | String ":" rest1 =>
              match scan_once fuel' (skip_ws rest1) with
              | Some (v, rest2) =>
                  match skip_ws rest2 with
                  | String "}" rest3 => Some ([(key, v)], rest3)
                  | String "," rest3 =>
                      match skip_ws rest3 with
                      | String "034" rest4 =>
                          match parse_members fuel' rest4 with
                          | Some (pairs, rest5) => Some ((key, v) :: pairs, rest5)
                          | None => None
                          end
                      | _ => None
                      end
                  | _ => None
                  end
              | None => None
              end
          | _ => None
          end%char
      | None => None
      end
  end.

(** [json.loads(s)]: one value, with nothing but white space around it. *)
Definition loads (s : string) : option value :=
  match scan_once (S (String.length s)) (skip_ws s) with
  | Some (v, rest) =>
      match skip_ws rest with
      | EmptyString => Some v
      | String _ _ => None
      end
  | None => None
  end.






End JsonDecode.

(** The layout of [dumps], and the measures used to reason about
    [loads] on it. *)

Module JsonText.
Import Json JsonDecode.









End JsonText.

(** ** Shapes of responses, for statements about [parse_symbols_info] *)

Module ParsingShapes.
Import Parsing.

Definition is_dict (v : value) : bool :=
  match v with VDict _ => true | _ => false end.

(** Values Python can hash: everything of the model but lists and
    dictionaries. *)
Definition hashable (v : value) : bool :=
  match v with VList _ | VDict _ => false | _ => true end.

(** [d.get(k)] *)
Definition field (d : dict) (k : string) : value :=
  default VNone (PyDict.get d k).

(** [d.get("filters", [])] when it is a list, the empty list otherwise. *)
Definition filters_of (d : dict) : list value :=
  match PyDict.get d "filters" with
  | Some (VList l) => l
  | _ => []
  end.

(** The filters are missing or a list of dictionaries. *)
Definition filters_ok (d : dict) : bool :=
  match PyDict.get d "filters" with
  | None => true
  | Some (VList l) => forallb is_dict l
  | Some _ => false
  end.

(** An instrument as the exchange sends it: a dictionary whose symbol can
    be hashed and whose filters are as above. *)
Definition instrument_ok (v : value) : bool :=
  match v with
  | VDict d => hashable (field d "symbol") && filters_ok d
  | _ => false
  end.

(** [response.get("symbols", [])] when it is a list. *)
Definition instruments (response : dict) : list value :=
  match PyDict.get response "symbols" with
  | Some (VList l) => l
  | _ => []
  end.

Definition response_ok (response : dict) : bool :=
  match PyDict.get response "symbols" with
  | None => true
  | Some (VList l) => forallb instrument_ok l
  | Some _ => false
  end.

Definition has_type (ty : string) (f : value) : bool :=
  match f with
  | VDict d => py_eq_str (field d "filterType") ty
  | _ => false
  end.

(** The last filter of a type in the list. *)
Definition last_filter (ty : string) (filters : list value) : option value :=
  last (List.filter (has_type ty) filters).

Definition filter_field (f : option value) (k : string) : value :=
  match f with
  | Some (VDict d) => field d k
  | _ => VNone
  end.

(** The six locals after the filter loop, read off the list. *)
Definition selected_filters (filters : list value) : filter_vars :=
  let price := last_filter "PRICE_FILTER" filters in
  let lot := last_filter "LOT_SIZE" filters in
  FilterVars (filter_field price "tickSize") (filter_field price "minPrice")
    (filter_field price "maxPrice") (filter_field lot "minQty")
    (filter_field lot "maxQty") (filter_field lot "stepSize").

(** The key and the record one turn of the symbol loop binds. *)
Definition symbol_entry (symbol_info : value) : res (hkey * value) :=
  symbol ← py_get symbol_info "symbol" VNone;
  status ← py_get symbol_info "status" VNone;
  base_asset ← py_get symbol_info "baseAsset" VNone;
  quote_asset ← py_get symbol_info "quoteAsset" VNone;
  filters ← py_get symbol_info "filters" (VList []);
  filter_infos ← py_iter filters;
  fv ← for_each filter_body filter_infos filter_vars_init;
  k ← py_hash symbol;
  Ok (k, symbol_record symbol base_asset quote_asset status fv).

End ParsingShapes.

(** ** Tables, for statements about the table sink *)

Module TableItems.

(** The table after [table[key] = value] for each item in turn. *)
Definition insert_items (items : list (hkey * value)) (tbl : gmap hkey value)
  : gmap hkey value :=
  fold_left (fun tbl kv => <[kv.1 := kv.2]> tbl) items tbl.

End TableItems.

(** ** Histories and files, for statements about the log sink *)

Module FilePubSubHistory.
Import FilePubSub.

(** The topic does not start with ['/']. *)
Definition relative (topic : string) : bool := negb (starts_with_sep topic).

(** The [publish] calls of a history are on such topics. *)
Definition publishes_relative (events : list event) : Prop :=
  Forall (fun e => match e with
                   | Publish topic _ _ => relative topic = true
                   | _ => True
                   end) events.

(** The topic has no ['/'] in it: its file is an entry of the base
    directory, under the name [<topic>.log]. *)
Fixpoint has_sep (s : string) : bool :=
  match s with
  | EmptyString => false
  | String c s' => bool_decide (c = "/"%char) || has_sep s'
  end.

Definition plain (topic : string) : bool := negb (has_sep topic).

(** The [publish] calls of a history are on such topics. *)
Definition publishes_plain (events : list event) : Prop :=
  Forall (fun e => match e with
                   | Publish topic _ _ => plain topic = true
                   | _ => True
                   end) events.

(** The lines the [publish] calls of a history write for a topic, in call
    order. *)
Fixpoint lines_for (topic : string) (events : list event) : string :=
  match events with
  | [] => ""
  | Publish t message now :: events' =>
      if decide (t = topic) then log_line now message +:+ lines_for topic events'
      else lines_for topic events'
  | _ :: events' => lines_for topic events'
  end.

(** The pending text of the handles that append to [path], in the order of
    the dictionary. *)
Fixpoint pendings_for (path : string) (handles : list (string * TextIO)) : string :=
  match handles with
  | [] => ""
  | e :: handles' =>
      if decide (file_path e.2 = path)
      then pending e.2 +:+ pendings_for path handles'
      else pendings_for path handles'
  end.

(** A handle as [_get_file_handle] makes it for a relative topic. *)
Definition entry_ok (base : string) (e : string * TextIO) : Prop :=
  file_path e.2 = path_join base (e.1 +:+ ".log") ∧ relative e.1 = true.

(** What holds of the handles in every state reached through publishes on
    relative topics. *)
Definition handles_ok (p : t) : Prop :=
  NoDup (PyDict.keys (file_handles p))
  ∧ Forall (entry_ok (base_dir p)) (file_handles p).

(** A handle after [flush()]. *)
Definition flushed (h : TextIO) : TextIO :=
  {| file_path := file_path h; pending := "" |}.

(** Printable ASCII: U+0020 to U+007E. *)
Definition printable (c : ascii) : bool :=
  ((32 <=? N_of_ascii c) && (N_of_ascii c <=? 126))%N.

Fixpoint all_printable (s : string) : bool :=
  match s with
  | EmptyString => true
  | String c s' => printable c && all_printable s'
  end.

End FilePubSubHistory.

(** ** [server/core.py]: the read handlers of [ExchangeMetadataWebServer] *)

Module ExchangeMetadataWebServer.

(** What a handler hands to the framework: the value it returns, or the
    [HTTPException] it raises. *)
Inductive response (A : Type) : Type :=
| Return (data : A)
| HTTPException (status_code : Z) (detail : string).
Arguments Return {A} data.
Arguments HTTPException {A} status_code detail.

(** [v is None] *)
Definition is_none (v : value) : bool :=
  match v with VNone => true | _ => false end.

(** [bool(v)]: [None], [False], [0] and the empty string, list and
    dictionary are false. *)
Definition truthy (v : value) : bool :=
  match v with
  | VNone => false
  | VBool b => b
  | VInt n => negb (n =? 0)%Z
  | VStr s => match s with EmptyString => false | _ => true end
  | VList l => match l with [] => false | _ => true end
  | VDict d => match d with [] => false | _ => true end
  end.

(** [GET /rate_limits] *)
Definition get_rate_limits (kv_store : Storage.storage) : response value :=
  let data := Storage.read "exchange_info" (KStr "rateLimits") kv_store in
  if is_none data then HTTPException 404 "No data available" else Return data.

(** [GET /symbols/{symbol}]: the test is [not symbol_data]. *)
Definition get_symbol_info (symbol : string) (kv_store : Storage.storage)
  : response value :=
  let symbol_data := Storage.read "symbols" (KStr symbol) kv_store in
  if negb (truthy symbol_data) then HTTPException 404 "Symbol not found"
  else Return symbol_data.

(** [GET /exchange_status]: reads the table ['system_status']. *)
Definition get_all_exchange_info (kv_store : Storage.storage)
  : response Storage.table :=
  match Storage.read_all "system_status" kv_store with
  | None => HTTPException 404 "No data available"
  | Some data => Return data
  end.

(** [GET /account_info] *)
Definition get_all_account_info (kv_store : Storage.storage)
  : response Storage.table :=
  match Storage.read_all "account_info" kv_store with
  | None => HTTPException 404 "No data available"
  | Some data => Return data
  end.

End ExchangeMetadataWebServer.

(** ** [poller/core.py]: the polling loop of [BinanceExchangeMetadataPoller]

    The three fetches are inputs: each gives a dictionary, or [None] after
    an error the fetch handles; an exception that a fetch lets through is
    not modelled.  The periodic flush of the log sink runs only while the
    loop awaits, any number of times. *)

Module BinanceExchangeMetadataPoller.
Import InMemoryWithLogPublisher.

(** What one turn of the loop meets: the three answers, the wall-clock
    time of each [publish], and the runs of the flush task during
    [await get_exchange_info()], [await get_system_status()] and
    [await asyncio.sleep(...)]; [get_account_info] does not await. *)
Record turn : Type := {
  exchange_info : option Parsing.dict;
  account_info : option Parsing.dict;
  system_status : option Parsing.dict;
  exchange_info_time : Datetime.datetime;
  account_info_time : Datetime.datetime;
  system_status_time : Datetime.datetime;
  flushes_in_exchange_info : nat;
  flushes_in_system_status : nat;
  flushes_in_sleep : nat
}.

(** The message of [if answer: publish(...)]: [None] and the empty
    dictionary are false. *)
Definition to_publish (answer : option Parsing.dict) : option Parsing.dict :=
  match answer with
  | Some (kv :: d) => Some (kv :: d)
  | _ => None
  end.

(** [if answer: self.publisher.publish(topic=..., message=answer)] *)
Definition publish_if (topic : string) (answer : option Parsing.dict)
    (now : Datetime.datetime) (p : t) : res unit * t :=
  match to_publish answer with
  | Some message => publish topic message now p
  | None => (Ok tt, p)
  end.

(** The table sink's share of [publish_if]. *)
Definition store_if (topic : string) (answer : option Parsing.dict)
    (s : Storage.storage) : res unit * Storage.storage :=
  match to_publish answer with
  | Some message => KeyValueStorePubSub.publish topic message s
  | None => (Ok tt, s)
  end.

(** [n] runs of the flush task. *)
Definition flushes (n : nat) (p : t) : t :=
  {| in_memory := in_memory p;
     file_backed := Nat.iter n FilePubSub.flush_all (file_backed p) |}.

(** The body of [while True] in [poll_http_endpoints]: an exception of a
    [publish] is caught nowhere and ends the turn. *)
Definition poll_turn (f : turn) (p : t) : res unit * t :=
  let p0 := flushes (flushes_in_exchange_info f) p in
  match publish_if "exchange_info" (exchange_info f) (exchange_info_time f) p0 with
  | (Raise e, p1) => (Raise e, p1)
  | (Ok _, p1) =>
      match publish_if "account_info" (account_info f) (account_info_time f) p1 with
      | (Raise e, p2) => (Raise e, p2)
      | (Ok _, p2) =>
          let p3 := flushes (flushes_in_system_status f) p2 in
          match publish_if "system_status" (system_status f)
                  (system_status_time f) p3 with
          | (Raise e, p4) => (Raise e, p4)
          | (Ok _, p4) => (Ok tt, flushes (flushes_in_sleep f) p4)
          end
      end
  end.


End BinanceExchangeMetadataPoller.

(** A turn with the three answers given, every [publish] at
    [Example.now0], and one run of the flush task while the loop
    sleeps. *)
Module PollerExample.
Import BinanceExchangeMetadataPoller.

Definition answers (exchange account status : option Parsing.dict) : turn :=
  {| exchange_info := exchange;
     account_info := account;
     system_status := status;
     exchange_info_time := Example.now0;
     account_info_time := Example.now0;
     system_status_time := Example.now0;
     flushes_in_exchange_info := 0;
     flushes_in_system_status := 0;
     flushes_in_sleep := 1 |}.


Definition good_turn : turn :=
  answers (Some (("rateLimits", VList [VInt 1200]) :: KeyValueStorePubSub.sample_response))
    None (Some Example.status_message).

End PollerExample.

(** ** Documents: the objects [json] writes and reads

    [json.dumps] takes more than the values above and [json.loads] gives
    more back, floats among them.  The floats of the model are the three
    that are not finite, which [json] writes as [NaN], [Infinity] and
    [-Infinity] under its defaults; the text of a finite float is its
    shortest [repr], which is outside the model. *)

Module Document.
Import FilePubSub.

Inductive pyfloat : Type := NaN | Infinity | NegInfinity.

Inductive document : Type :=
| DNone
| DBool (b : bool)
| DInt (n : Z)
| DFloat (x : pyfloat)
| DStr (s : string)
| DList (l : list document)
| DDict (d : list (string * document)).

(** A value of the subsystem as a document. *)
Fixpoint of_value (v : value) : document :=
  match v with
  | VNone => DNone
  | VBool b => DBool b
  | VInt n => DInt n
  | VStr s => DStr s
  | VList l => DList (map of_value l)
  | VDict d => DDict (map (fun kv => (kv.1, of_value kv.2)) d)
  end.




(** [float.__repr__] as [json] has it with [allow_nan=True]. *)
Definition float_repr (x : pyfloat) : string :=
  match x with
  | NaN => "NaN"
  | Infinity => "Infinity"
  | NegInfinity => "-Infinity"
  end.

(** [json.dumps] on documents. *)
Fixpoint dumps (v : document) : string :=
  match v with
  | DNone => "null"
  | DBool true => "true"
  | DBool false => "false"
  | DInt n => Json.repr_int n
  | DFloat x => float_repr x
  | DStr s => Json.encode_string s
  | DList l => "[" +:+ Json.join ", " (map dumps l) +:+ "]"
  | DDict d =>
      "{" +:+ Json.join ", "
                (map (fun kv => Json.encode_string kv.1 +:+ ": " +:+ dumps kv.2) d)
          +:+ "}"
  end.

(** The constants the scanner tries when no number matches. *)
Definition scan_constant (s : string) : option (document * string) :=
  match JsonDecode.strip_prefix "NaN" s with
  | Some rest => Some (DFloat NaN, rest)
  | None =>
      match JsonDecode.strip_prefix "Infinity" s with
      | Some rest => Some (DFloat Infinity, rest)
      | None =>
          match JsonDecode.strip_prefix "-Infinity" s with
          | Some rest => Some (DFloat NegInfinity, rest)
          | None => None
          end
      end
  end.

(** [NUMBER_RE] first, the constants next. *)
Definition scan_number (s : string) : option (document * string) :=
  match JsonDecode.scan_number s with
  | Some (v, rest) => Some (of_value v, rest)
  | None => scan_constant s
  end.

Definition dict_of_pairs (pairs : list (string * document))
  : list (string * document) :=
  fold_left (fun d kv => PyDict.set d kv.1 kv.2) pairs [].

(** The scanner of [json.loads], which gives documents. *)
Fixpoint scan_once (fuel : nat) (s : string) : option (document * string) :=
  match fuel with
  | O => None
  | S fuel' =>
      match s with
      | EmptyString => None
      | String c s' =>
          match c with
          | "034" =>
              match JsonDecode.scanstring s' with
              | Some (str, rest) => Some (DStr str, rest)
              | None => None
              end
          | "{" =>
              match JsonDecode.skip_ws s' with
              | String "}" rest => Some (DDict [], rest)
              | String "034" rest =>
                  match parse_members fuel' rest with
                  | Some (pairs, rest') => Some (DDict (dict_of_pairs pairs), rest')
                  | None => None
                  end
              | _ => None
              end
          | "[" =>
              match JsonDecode.skip_ws s' with
              | String "]" rest => Some (DList [], rest)
              | s'' =>
                  match parse_elements fuel' s'' with
                  | Some (values, rest) => Some (DList values, rest)
                  | None => None
                  end
              end
          | "n" =>
              match JsonDecode.strip_prefix "null" s with
              | Some rest => Some (DNone, rest)
              | None => None
              end
          | "t" =>
              match JsonDecode.strip_prefix "true" s with
              | Some rest => Some (DBool true, rest)
              | None => None
              end
          | "f" =>
              match JsonDecode.strip_prefix "false" s with
              | Some rest => Some (DBool false, rest)
              | None => None
              end
          | _ => scan_number s
          end%char
      end
  end

with parse_elements (fuel : nat) (s : string)
  : option (list document * string) :=
  match fuel with
  | O => None
  | S fuel' =>
      match scan_once fuel' s with
      | Some (v, rest) =>
          match JsonDecode.skip_ws rest with
          | String "]" rest' => Some ([v], rest')
          | String "," rest' =>
              match parse_elements fuel' (JsonDecode.skip_ws rest') with
              | Some (values, rest'') => Some (v :: values, rest'')
              | None => None
              end
          | _ => None
          end%char
      | None => None
      end
  end

with parse_members (fuel : nat) (s : string)
  : option (list (string * document) * string) :=
  match fuel with
  | O => None
  | S fuel' =>
      match JsonDecode.scanstring s with
      | Some (key, rest) =>
          match JsonDecode.skip_ws rest with
          | String ":" rest1 =>
              match scan_once fuel' (JsonDecode.skip_ws rest1) with
              | Some (v, rest2) =>
                  match JsonDecode.skip_ws rest2 with
                  | String "}" rest3 => Some ([(key, v)], rest3)
                  | String "," rest3 =>
                      match JsonDecode.skip_ws rest3 with
                      | String "034" rest4 =>
                          match parse_members fuel' rest4 with
                          | Some (pairs, rest5) => Some ((key, v) :: pairs, rest5)
                          | None => None
                          end
                      | _ => None
                      end
                  | _ => None
                  end
              | None => None
              end
          | _ => None
          end%char
      | None => None
      end
  end.

(** [json.loads(s)] *)
Definition loads (s : string) : option document :=
  match scan_once (S (String.length s)) (JsonDecode.skip_ws s) with
  | Some (v, rest) =>
      match JsonDecode.skip_ws rest with
      | EmptyString => Some v
      | String _ _ => None
      end
  | None => None
  end.

(** The line [publish] writes for a message that is a document. *)
Definition log_line (now : Datetime.datetime) (message : list (string * document))
  : string :=
  Datetime.strftime now +:+ " - " +:+ dumps (DDict message)
    +:+ String Json.newline "".

(** [FilePubSub.publish] on such a message: the same statements. *)
Definition publish (topic : string) (message : list (string * document))
    (now : Datetime.datetime) (p : t) : res unit * t :=
  let '(h, p1) := _get_file_handle topic p in
  let h' := {| file_path := file_path h;
               pending := pending h +:+ log_line now message |} in
  let handles := PyDict.set (file_handles p1) topic h' in
  match write_counts p1 !! topic with
  | None =>
      (Raise (KeyError topic),
       {| base_dir := base_dir p1; file_handles := handles;
          write_counts := write_counts p1; flush_limit := flush_limit p1;
          flush_task := flush_task p1; files := files p1 |})
  | Some c =>
      let p2 := {| base_dir := base_dir p1; file_handles := handles;
                   write_counts := <[topic := c + 1]> (write_counts p1);
                   flush_limit := flush_limit p1;
                   flush_task := flush_task p1; files := files p1 |} in
      (Ok tt, if bool_decide (flush_limit p2 <= c + 1) then flush topic p2 else p2)
  end.






End Document.

(** * Properties *)

(** ** Insertion-ordered dictionaries *)

Module PyDictFacts.
Import PyDict.
Section Facts.
Context {K : Type} `{EqDecision K} {V : Type}.
Implicit Types (d : list (K * V)) (k : K) (v : V).

Lemma get_set_eq d k v : get (set d k v) k = Some v.
Proof.
  induction d as [|[k' v'] d IH]; simpl.
  - rewrite decide_True; auto.
  - destruct (decide (k = k')); simpl.
    + rewrite decide_True; auto.
    + rewrite decide_False; auto.
Qed.

Lemma get_set_ne d k k' v : k <> k' -> get (set d k v) k' = get d k'.
Proof.
  intros Hne. induction d as [|[k0 v0] d IH]; simpl.
  - rewrite decide_False; auto.
  - destruct (decide (k = k0)) as [->|]; simpl.
    + rewrite !decide_False; auto.
    + destruct (decide (k' = k0)); auto.
Qed.

Lemma set_get_id d k v : get d k = Some v -> set d k v = d.
Proof.
  induction d as [|[k0 v0] d IH]; simpl; [discriminate|].
  destruct (decide (k = k0)) as [->|Hne].
  - by intros [= ->].
  - intros Hget. by rewrite IH.
Qed.

Lemma keys_set_NoDup d k v : NoDup (keys d) -> NoDup (keys (set d k v)).
Proof.
  unfold keys. induction d as [|[k0 v0] d IH]; simpl; intros Hnd.
  - repeat constructor. intros Hin. inversion Hin.
  - apply NoDup_cons in Hnd as [Hnotin Hnd].
    destruct (decide (k = k0)) as [->|Hne]; simpl.
    + apply NoDup_cons. split; assumption.
    + apply NoDup_cons. split; [|auto].
      intros Hin. apply Hnotin. clear -Hin Hne.
      induction d as [|[k1 v1] d IH]; simpl in *.
      * apply list_elem_of_singleton in Hin. congruence.
      * destruct (decide (k = k1)) as [->|]; simpl in *.
        -- assumption.
        -- apply elem_of_cons in Hin as [->|Hin];
             [apply list_elem_of_here | apply list_elem_of_further; auto].
Qed.
End Facts.
End PyDictFacts.

(** ** The table store *)

Module StorageFacts.
Import Storage.

Lemma write_lookup_same t k v (s : storage) :
  write t k v s !! t = Some (<[k := v]> (default ∅ (s !! t))).
Proof.
  unfold write. destruct (s !! t) as [tbl|] eqn:Ht.
  - rewrite Ht. simpl. by rewrite lookup_insert_eq.
  - rewrite lookup_insert_eq. simpl. by rewrite lookup_insert_eq.
Qed.

Lemma write_lookup_other t t' k v (s : storage) :
  t' ≠ t → write t k v s !! t' = s !! t'.
Proof.
  intros Hne. unfold write. destruct (s !! t) as [tbl|] eqn:Ht.
  - rewrite Ht. by rewrite lookup_insert_ne.
  - rewrite lookup_insert_eq. by rewrite !lookup_insert_ne.
Qed.

Lemma write_write t k v1 v2 (s : storage) :
  write t k v2 (write t k v1 s) = write t k v2 s.
Proof.
  apply map_eq. intros t'. destruct (decide (t' = t)) as [->|Hne].
  - rewrite !write_lookup_same. simpl. by rewrite insert_insert_eq.
  - by rewrite !write_lookup_other.
Qed.

Lemma entries_for_lookup k v (tbl : table) :
  tbl !! k = Some v → entries_for k tbl = [(k, v)].
Proof.
  intros Hk. unfold entries_for.
  assert (Hnd : NoDup (List.filter (λ p : hkey * value, bool_decide (p.1 = k))
                         (map_to_list tbl))).
  { apply NoDup_ListNoDup, List.NoDup_filter, NoDup_ListNoDup, NoDup_map_to_list. }
  assert (Hel : ∀ p, p ∈ List.filter (λ p : hkey * value, bool_decide (p.1 = k))
                       (map_to_list tbl) ↔ p = (k, v)).
  { intros [k' v']. rewrite list_elem_of_In, List.filter_In, <- list_elem_of_In.
    rewrite elem_of_map_to_list, bool_decide_eq_true. simpl. split.
    - intros [Hl ->]. congruence.
    - intros [= -> ->]. auto. }
  destruct (List.filter _ _) as [|p [|q l]].
  - specialize (Hel (k, v)). destruct Hel as [_ Hel].
    specialize (Hel eq_refl). inversion Hel.
  - f_equal. apply Hel. apply list_elem_of_here.
  - exfalso. apply NoDup_cons in Hnd as [Hp _]. apply Hp.
    assert (p = (k, v)) as -> by (apply Hel, list_elem_of_here).
    assert (q = (k, v)) as -> by (apply Hel, list_elem_of_further, list_elem_of_here).
    apply list_elem_of_here.
Qed.

Lemma run_ops_snoc ops o (s : storage) : run (ops ++ [o]) s = apply o (run ops s).
Proof. unfold run. by rewrite fold_left_app. Qed.

Lemma apply_absent t o (s : storage) :
  writes_to t o = false → s !! t = None → apply o s !! t = None.
Proof.
  intros Hw Hs. destruct o as [t' k v|t' k|t']; simpl in *.
  - apply bool_decide_eq_false in Hw.
    rewrite write_lookup_other; auto.
  - unfold delete. destruct (s !! t') as [tbl|] eqn:Ht'; auto.
    destruct (tbl !! k); auto.
    rewrite lookup_insert_ne; auto. congruence.
  - unfold clear_table. destruct (s !! t') eqn:Ht'; auto.
    rewrite lookup_insert_ne; auto. congruence.
Qed.

(** C5: two successive writes of a key leave one entry for it in
    [read_all], holding the value written last; the result is the store a
    single write of that value gives, whatever was written first. *)
Theorem write_twice_one_entry t k v1 v2 (s : storage) :
  (∃ tbl, read_all t (write t k v2 (write t k v1 s)) = Some tbl
          ∧ entries_for k tbl = [(k, v2)]
          ∧ tbl !! k = Some v2)
  ∧ write t k v2 (write t k v1 s) = write t k v2 s
  ∧ write t k v2 (write t k v2 s) = write t k v2 s.
Proof.
  split; [|split; apply write_write].
  unfold read_all. rewrite write_write, write_lookup_same.
  eexists. split; [reflexivity|].
  split; [apply entries_for_lookup|]; apply lookup_insert_eq.
Qed.

(** C6: a table no call has written is absent for [read_all], in the new
    store and after any history without a write to it; after a write and
    a [clear_table], [read_all] gives the empty table and not absent. *)
Theorem read_all_absent_vs_empty :
  (∀ t, read_all t init = None)
  ∧ (∀ ops t, forallb (λ o, negb (writes_to t o)) ops = true →
              read_all t (run ops init) = None)
  ∧ (∀ t k v (s : storage),
       read_all t (clear_table t (write t k v s)) = Some ∅
       ∧ read_all t (clear_table t (write t k v s)) ≠ None).
Proof.
  split; [|split].
  - intros t. apply lookup_empty.
  - intros ops t. induction ops as [|o ops IH] using rev_ind; intros Hall.
    + apply lookup_empty.
    + rewrite forallb_app in Hall. apply andb_true_iff in Hall as [Hops Ho].
      simpl in Ho. rewrite andb_true_r in Ho. apply negb_true_iff in Ho.
      rewrite run_ops_snoc. unfold read_all in *. apply apply_absent; auto.
  - intros t k v s. unfold read_all, clear_table.
    rewrite write_lookup_same, lookup_insert_eq. split; [reflexivity|discriminate].
Qed.

Lemma read_all_absent_vs_empty_witness :
  read_all "symbols" (run [Write "t" (KStr "k") (VStr "v"); Delete "t" (KStr "k")] init)
  = None.
Proof.
  apply (proj1 (proj2 read_all_absent_vs_empty)). reflexivity.
Defined.

(** C10: [write] and [delete] on [(t, k)] leave [read] at every other pair
    as it was, and leave the other tables as they were; [clear_table t]
    leaves the other tables as they were; [delete] and [clear_table] on a
    table or key that is not there return the store they were given. *)
Theorem mutations_are_local :
  (∀ t k v t' k' (s : storage),
      (t', k') ≠ (t, k) → read t' k' (write t k v s) = read t' k' s)
  ∧ (∀ t k t' k' (s : storage),
      (t', k') ≠ (t, k) → read t' k' (delete t k s) = read t' k' s)
  ∧ (∀ t k v t' (s : storage),
      t' ≠ t → read_all t' (write t k v s) = read_all t' s)
  ∧ (∀ t k t' (s : storage),
      t' ≠ t → read_all t' (delete t k s) = read_all t' s)
  ∧ (∀ t t' (s : storage),
      t' ≠ t → read_all t' (clear_table t s) = read_all t' s)
  ∧ (∀ t k (s : storage), read_all t s = None → delete t k s = s)
  ∧ (∀ t k tbl (s : storage),
      read_all t s = Some tbl → tbl !! k = None → delete t k s = s)
  ∧ (∀ t (s : storage), read_all t s = None → clear_table t s = s).
Proof.
  unfold read, read_all. repeat split.
  - intros t k v t' k' s Hne. destruct (decide (t' = t)) as [->|Ht].
    + rewrite write_lookup_same. simpl.
      rewrite lookup_insert_ne; [reflexivity|congruence].
    + by rewrite write_lookup_other.
  - intros t k t' k' s Hne. unfold delete.
    destruct (s !! t) as [tbl|] eqn:Ht; [|reflexivity].
    destruct (tbl !! k) eqn:Hk; [|reflexivity].
    destruct (decide (t' = t)) as [->|Hne'].
    + rewrite lookup_insert_eq, Ht. simpl.
      rewrite lookup_delete_ne; [reflexivity|congruence].
    + by rewrite lookup_insert_ne.
  - intros t k v t' s Hne. by apply write_lookup_other.
  - intros t k t' s Hne. unfold delete.
    destruct (s !! t) as [tbl|]; [|reflexivity].
    destruct (tbl !! k); [|reflexivity]. by rewrite lookup_insert_ne.
  - intros t t' s Hne. unfold clear_table.
    destruct (s !! t); [|reflexivity]. by rewrite lookup_insert_ne.
  - intros t k s Ht. unfold delete. by rewrite Ht.
  - intros t k tbl s Ht Hk. unfold delete. by rewrite Ht, Hk.
  - intros t s Ht. unfold clear_table. by rewrite Ht.
Qed.

Lemma mutations_are_local_witness :
  read "symbols" (KStr "ETHUSDT")
    (write "symbols" (KStr "BTCUSDT") (VStr "x")
       (write "symbols" (KStr "ETHUSDT") (VStr "y") init))
  = read "symbols" (KStr "ETHUSDT")
      (write "symbols" (KStr "ETHUSDT") (VStr "y") init).
Proof.
  apply (proj1 mutations_are_local). intros Heq. discriminate Heq.
Defined.

End StorageFacts.

(** ** The table-store sink *)

Module KeyValueStorePubSubFacts.
Import Parsing Storage KeyValueStorePubSub StorageFacts.

Lemma read_write_same t k v (s : storage) : read t k (write t k v s) = v.
Proof. unfold read. rewrite write_lookup_same. simpl. by rewrite lookup_insert_eq. Qed.

Lemma read_write_other_table t t' k k' v (s : storage) :
  t' ≠ t → read t' k' (write t k v s) = read t' k' s.
Proof. intros Hne. unfold read. by rewrite write_lookup_other. Qed.

Lemma parse_btcusdt status base_asset quote_asset (rest : dict) :
  parse_symbols_info (("symbols", VList [btcusdt status base_asset quote_asset]) :: rest)
  = Ok [(KStr "BTCUSDT", btcusdt_record status base_asset quote_asset)].
Proof. reflexivity. Qed.

(** What the parser does with missing keys: no ["symbols"] gives no record,
    an instrument without any of the expected keys gives a record of
    [None]s under the key [None]. *)
Lemma parse_missing_keys :
  (∀ response : dict, PyDict.get response "symbols" = None →
                      parse_symbols_info response = Ok [])
  ∧ parse_symbols_info [("symbols", VList [VDict []])]
    = Ok [(KNone, symbol_record VNone VNone VNone VNone filter_vars_init)].
Proof.
  split; [|reflexivity].
  intros response Hget. unfold parse_symbols_info. by rewrite Hget.
Qed.

(** Without ["rateLimits"] the call on topic ['exchange_info'] ends in an
    exception, whatever else the message holds. *)
Lemma publish_exchange_info_needs_rateLimits (message : dict) (s : storage) :
  PyDict.get message "rateLimits" = None →
  ∃ e, (publish "exchange_info" message s).1 = Raise e.
Proof.
  intros Hrl. unfold publish, publish_exchange_info.
  rewrite decide_True by reflexivity.
  destruct (parse_symbols_info message) as [infos|e]; simpl.
  - rewrite Hrl. simpl. eauto.
  - eauto.
Qed.

(** C1: on the example response of [parsing.py], which has no
    ["rateLimits"], [publish] raises [KeyError] after it has written the
    symbol: the call does not return normally. *)
Theorem publish_sample_response_raises :
  publish "exchange_info" sample_response init
  = (Raise (KeyError "rateLimits"),
     write "symbols" (KStr "BTCUSDT")
       (btcusdt_record (VStr "TRADING") (VStr "BTC") (VStr "USDT")) init).
Proof. reflexivity. Qed.

(** C4: publishing an ['exchange_info'] message whose one instrument is
    BTCUSDT with the two filters of the example leaves, in table
    ['symbols'] under key "BTCUSDT", the record with the eight fields as
    given; with a ["rateLimits"] entry in the message the call returns
    normally and stores that entry too. *)
Theorem publish_btcusdt_example status base_asset quote_asset
    (rest : dict) (s : storage) :
  let message := ("symbols", VList [btcusdt status base_asset quote_asset]) :: rest in
  let out := publish "exchange_info" message s in
  read "symbols" (KStr "BTCUSDT") out.2
  = btcusdt_record status base_asset quote_asset
  ∧ (∃ tbl, read_all "symbols" out.2 = Some tbl
            ∧ tbl !! KStr "BTCUSDT"
              = Some (btcusdt_record status base_asset quote_asset))
  ∧ (∀ rate_limits, PyDict.get rest "rateLimits" = Some rate_limits →
       out.1 = Ok tt
       ∧ read "exchange_info" (KStr "rateLimits") out.2 = rate_limits).
Proof.
  intros message out. subst out message.
  unfold publish, publish_exchange_info.
  rewrite decide_True by reflexivity. rewrite parse_btcusdt.
  change (PyDict.get (_ :: rest) "rateLimits") with (PyDict.get rest "rateLimits").
  unfold write_items. simpl fold_left.
  destruct (PyDict.get rest "rateLimits") as [rl|] eqn:Hrl; simpl.
  - split; [|split].
    + rewrite read_write_other_table by discriminate. apply read_write_same.
    + unfold read_all. rewrite write_lookup_other by discriminate.
      rewrite write_lookup_same. eexists. split; [reflexivity|].
      apply lookup_insert_eq.
    + intros rl' [= <-]. split; [reflexivity|]. apply read_write_same.
  - split; [|split].
    + apply read_write_same.
    + unfold read_all. rewrite write_lookup_same. eexists. split; [reflexivity|].
      apply lookup_insert_eq.
    + intros rl' [=].
Qed.

Lemma publish_btcusdt_example_witness :
  (publish "exchange_info"
     (("symbols", VList [btcusdt (VStr "TRADING") (VStr "BTC") (VStr "USDT")])
        :: [("rateLimits", VList [])]) init).1 = Ok tt.
Proof.
  apply (proj2 (proj2 (publish_btcusdt_example (VStr "TRADING") (VStr "BTC")
                         (VStr "USDT") [("rateLimits", VList [])] init))
           (VList [])).
  reflexivity.
Defined.

(** C9: [publish] on a topic other than ['exchange_info'],
    ['system_status'] and ['account_info'] returns normally and leaves the
    store as it was. *)
Theorem publish_other_topic_noop topic (message : dict) (s : storage) :
  topic ∉ ["exchange_info"; "system_status"; "account_info"] →
  publish topic message s = (Ok tt, s).
Proof.
  intros Hnot. unfold publish, publish_exchange_info, publish_status_or_account.
  rewrite decide_False.
  2:{ intros ->. apply Hnot. apply list_elem_of_here. }
  rewrite bool_decide_eq_false_2; [reflexivity|].
  intros Hin. apply Hnot. by apply list_elem_of_further.
Qed.

Lemma publish_other_topic_noop_witness :
  publish "ticker" [("price", VStr "1")] init = (Ok tt, init).
Proof.
  apply publish_other_topic_noop.
  intros Hin. repeat (apply elem_of_cons in Hin as [Heq|Hin]; [discriminate Heq|]).
  inversion Hin.
Defined.

End KeyValueStorePubSubFacts.

(** ** Strings *)

Module StringFacts.

Lemma append_cons c (s1 s2 : string) : String c s1 +:+ s2 = String c (s1 +:+ s2).
Proof. reflexivity. Qed.

Lemma append_nil_l (s : string) : "" +:+ s = s.
Proof. reflexivity. Qed.

Lemma append_nil_r (s : string) : s +:+ "" = s.
Proof.
  induction s as [|c s IH]; [reflexivity|]. by rewrite append_cons, IH.
Qed.

Lemma append_assoc (s1 s2 s3 : string) : (s1 +:+ s2) +:+ s3 = s1 +:+ (s2 +:+ s3).
Proof.
  induction s1 as [|c s1 IH]; [reflexivity|]. by rewrite !append_cons, IH.
Qed.

End StringFacts.

(** ** The durable log sink *)

Module FilePubSubFacts.
Import FilePubSub FilePubSubRuns PyDictFacts StringFacts.

Ltac by_topic topic topic' :=
  destruct (decide (topic = topic')) as [<-|?];
  [rewrite ?get_set_eq, ?lookup_insert_eq
  |rewrite ?get_set_ne, ?lookup_insert_ne by done].

Lemma keys_agree_init base limit fs : keys_agree (init base limit fs).
Proof.
  intros topic. simpl. rewrite lookup_empty. split; intros [x Hx]; discriminate.
Qed.

Lemma counts_bounded_init base limit fs : counts_bounded (init base limit fs).
Proof. intros topic c. simpl. rewrite lookup_empty. discriminate. Qed.

Lemma flush_limit_flush topic p : flush_limit (flush topic p) = flush_limit p.
Proof. unfold flush. destruct (PyDict.get _ _); reflexivity. Qed.

Lemma keys_agree_flush topic p : keys_agree p → keys_agree (flush topic p).
Proof.
  intros Hkeys. unfold flush.
  destruct (PyDict.get (file_handles p) topic) as [h|] eqn:Hh; [|done].
  intros topic'. simpl. by_topic topic topic'.
  - split; eauto.
  - apply Hkeys.
Qed.

Lemma counts_bounded_flush topic p :
  1 ≤ flush_limit p → counts_bounded p → counts_bounded (flush topic p).
Proof.
  intros Hlim Hbound. unfold flush.
  destruct (PyDict.get (file_handles p) topic) as [h|] eqn:Hh; [|done].
  intros topic' c. simpl. by_topic topic topic'.
  - intros [= <-]. lia.
  - apply Hbound.
Qed.

Lemma keys_agree_absent topic p :
  keys_agree p → PyDict.get (file_handles p) topic = None →
  write_counts p !! topic = None.
Proof.
  intros Hkeys Hh. destruct (write_counts p !! topic) eqn:Hc; [|done].
  destruct (Hkeys topic) as [_ Hk]. destruct Hk as [x Hx]; [eauto|]. congruence.
Qed.

Lemma open_append_lookup path (fs : gmap string string) :
  default "" (open_append path fs !! path) = default "" (fs !! path).
Proof.
  unfold open_append. destruct (fs !! path) eqn:Hf; [by rewrite Hf|].
  by rewrite lookup_insert_eq.
Qed.

(** One call of [publish] in a state whose dictionaries agree. *)
Lemma publish_spec topic message now p :
  keys_agree p →
  (publish topic message now p).1 = Ok tt
  ∧ flush_limit (publish topic message now p).2 = flush_limit p
  ∧ file_text topic (publish topic message now p).2
    = file_text topic p +:+ log_line now message
  ∧ (if bool_decide (flush_limit p ≤ pending_count topic p + 1)
     then pending_count topic (publish topic message now p).2 = 0
          ∧ visible_text topic (publish topic message now p).2
            = file_text topic (publish topic message now p).2
     else pending_count topic (publish topic message now p).2
          = pending_count topic p + 1
          ∧ visible_text topic (publish topic message now p).2
            = visible_text topic p).
Proof.
  intros Hkeys.
  unfold publish, _get_file_handle, pending_count, file_text, visible_text.
  destruct (PyDict.get (file_handles p) topic) as [h|] eqn:Hh.
  - destruct (Hkeys topic) as [Hc _]. destruct Hc as [c Hc]; [eauto|].
    rewrite Hc. simpl.
    destruct (bool_decide (flush_limit p ≤ c + 1)) eqn:Hlim; simpl.
    + unfold flush. simpl. rewrite get_set_eq. simpl.
      rewrite get_set_eq, !lookup_insert_eq. simpl.
      rewrite !append_nil_r, append_assoc. auto.
    + rewrite get_set_eq, lookup_insert_eq. simpl.
      rewrite append_assoc. auto.
  - rewrite (keys_agree_absent topic p Hkeys Hh). simpl.
    rewrite lookup_insert_eq. simpl.
    destruct (bool_decide (flush_limit p ≤ 0 + 1)) eqn:Hlim; simpl.
    + unfold flush. simpl. rewrite get_set_eq. simpl.
      rewrite get_set_eq, !lookup_insert_eq. simpl.
      rewrite !append_nil_r, open_append_lookup. auto.
    + rewrite get_set_eq, lookup_insert_eq. simpl.
      rewrite !open_append_lookup, append_nil_l. auto.
Qed.

(** [publish] is [_get_file_handle], the write and the increment, and
    then [flush] or nothing. *)
Lemma publish_cases topic message now p :
  keys_agree p →
  ∃ h c q,
    file_handles q = PyDict.set (PyDict.set (file_handles p) topic h) topic
                       {| file_path := file_path h;
                          pending := pending h +:+ log_line now message |}
    ∧ write_counts q = <[topic := c + 1]> (<[topic := c]> (write_counts p))
    ∧ flush_limit q = flush_limit p
    ∧ c = pending_count topic p
    ∧ ((publish topic message now p).2 = q
       ∨ (publish topic message now p).2 = flush topic q).
Proof.
  intros Hkeys. unfold publish, _get_file_handle, pending_count.
  destruct (PyDict.get (file_handles p) topic) as [h|] eqn:Hh.
  - destruct (Hkeys topic) as [Hc _]. destruct Hc as [c Hc]; [eauto|].
    rewrite Hc. simpl.
    match goal with |- context [if _ then flush topic ?q else _] =>
      exists h, c, q end.
    simpl. repeat split.
    + by rewrite (set_get_id _ _ _ Hh).
    + by rewrite (insert_id _ _ _ Hc).
    + destruct (bool_decide _); auto.
  - rewrite (keys_agree_absent topic p Hkeys Hh). simpl.
    rewrite lookup_insert_eq. simpl.
    match goal with |- context [if _ then flush topic ?q else _] =>
      exists {| file_path := path_join (base_dir p) (topic +:+ ".log");
                pending := "" |}, 0, q end.
    simpl. repeat split. destruct (bool_decide _); auto.
Qed.

Lemma keys_agree_publish topic message now p :
  keys_agree p → keys_agree (publish topic message now p).2.
Proof.
  intros Hkeys.
  destruct (publish_cases topic message now p Hkeys)
    as (h & c & q & Hh & Hc & _ & _ & Hq).
  assert (Hagree : keys_agree q).
  { intros topic'. rewrite Hh, Hc. by_topic topic topic'.
    - split; eauto.
    - apply Hkeys. }
  destruct Hq as [-> | ->]; [done|by apply keys_agree_flush].
Qed.

Lemma counts_bounded_publish topic message now p :
  1 ≤ flush_limit p → keys_agree p → counts_bounded p →
  counts_bounded (publish topic message now p).2.
Proof.
  intros Hlim Hkeys Hbound.
  destruct (publish_spec topic message now p Hkeys) as (_ & Hfl & _ & Hcase).
  destruct (publish_cases topic message now p Hkeys)
    as (h & c & q & Hh & Hc & Hflq & Hcount & Hq).
  assert (Hcb : 0 ≤ c < flush_limit p).
  { subst c. unfold pending_count.
    destruct (write_counts p !! topic) eqn:Hw; simpl; [eauto|lia]. }
  intros topic' c'. destruct (decide (topic = topic')) as [<-|Hne].
  - intros Hc'. rewrite Hfl.
    assert (Hpc : pending_count topic (publish topic message now p).2 = c')
      by (unfold pending_count; by rewrite Hc').
    destruct (bool_decide (flush_limit p ≤ pending_count topic p + 1)) eqn:Hd.
    + destruct Hcase as [Hz _]. lia.
    + apply bool_decide_eq_false in Hd. destruct Hcase as [Hz _]. lia.
  - rewrite Hfl. destruct Hq as [-> | ->].
    + rewrite Hc, !lookup_insert_ne by done. apply Hbound.
    + unfold flush. destruct (PyDict.get (file_handles q) topic); simpl.
      * rewrite lookup_insert_ne, Hc, !lookup_insert_ne by done. apply Hbound.
      * rewrite Hc, !lookup_insert_ne by done. apply Hbound.
Qed.

Lemma keys_get {V} (d : list (string * V)) topic :
  topic ∈ PyDict.keys d ↔ is_Some (PyDict.get d topic).
Proof.
  unfold PyDict.keys. induction d as [|[k v] d IH]; simpl.
  - split; [intros Hin; inversion Hin|intros [x Hx]; discriminate].
  - rewrite elem_of_cons. destruct (decide (topic = k)) as [->|Hne].
    + split; eauto.
    + rewrite <- IH. split; [intros [?|?]; [done|auto]|auto].
Qed.

Lemma flush_all_fold l handles counts fs :
  ∃ handles' counts' fs',
    fold_left flush_all_body l (handles, counts, fs) = (handles', counts', fs')
    ∧ (∀ topic, is_Some (PyDict.get handles' topic)
                ↔ is_Some (PyDict.get handles topic) ∨ topic ∈ PyDict.keys l)
    ∧ (∀ topic, topic ∈ PyDict.keys l → counts' !! topic = Some 0)
    ∧ (∀ topic, topic ∉ PyDict.keys l → counts' !! topic = counts !! topic).
Proof.
  revert handles counts fs. induction l as [|[k h] l IH]; intros handles counts fs.
  - exists handles, counts, fs. simpl. repeat split.
    + auto.
    + intros [?|Hin]; [done|inversion Hin].
    + intros topic Hin. inversion Hin.
  - simpl. destruct (IH (PyDict.set handles k {| file_path := file_path h; pending := "" |})
                       (<[k := 0]> counts)
                       (<[file_path h := default "" (fs !! file_path h) +:+ pending h]> fs))
      as (handles' & counts' & fs' & Hfold & Hh & Hin & Hout).
    exists handles', counts', fs'. split; [exact Hfold|]. repeat split.
    + intros Hs. apply Hh in Hs as [Hs|Hs].
      * destruct (decide (k = topic)) as [->|Hne].
        -- right. apply list_elem_of_here.
        -- rewrite get_set_ne in Hs by done. auto.
      * right. by apply list_elem_of_further.
    + intros [Hs|Hs]; apply Hh.
      * left. destruct (decide (k = topic)) as [->|Hne].
        -- rewrite get_set_eq. eauto.
        -- by rewrite get_set_ne.
      * apply elem_of_cons in Hs as [->|Hs]; [|by right].
        left. rewrite get_set_eq. eauto.
    + intros topic Htopic. destruct (decide (topic ∈ PyDict.keys l)) as [Hl|Hl].
      * by apply Hin.
      * rewrite Hout by done. apply elem_of_cons in Htopic as [->|?]; [|done].
        apply lookup_insert_eq.
    + intros topic Htopic. apply not_elem_of_cons in Htopic as [Hne Hl].
      rewrite Hout by done. by rewrite lookup_insert_ne.
Qed.

Lemma flush_limit_flush_all p : flush_limit (flush_all p) = flush_limit p.
Proof.
  unfold flush_all.
  destruct (flush_all_fold (file_handles p) (file_handles p) (write_counts p) (files p))
    as (h & c & f & -> & _). reflexivity.
Qed.

Lemma keys_agree_flush_all p : keys_agree p → keys_agree (flush_all p).
Proof.
  intros Hkeys. unfold flush_all.
  destruct (flush_all_fold (file_handles p) (file_handles p) (write_counts p) (files p))
    as (h & c & f & -> & Hh & Hin & Hout).
  intros topic. simpl. rewrite Hh, keys_get.
  destruct (decide (topic ∈ PyDict.keys (file_handles p))) as [Hk|Hk].
  - rewrite Hin by done. apply keys_get in Hk. split; eauto.
  - rewrite Hout by done. rewrite <- (Hkeys topic). tauto.
Qed.

Lemma counts_bounded_flush_all p :
  1 ≤ flush_limit p → counts_bounded p → counts_bounded (flush_all p).
Proof.
  intros Hlim Hbound. unfold flush_all.
  destruct (flush_all_fold (file_handles p) (file_handles p) (write_counts p) (files p))
    as (h & c & f & -> & Hh & Hin & Hout).
  intros topic n. simpl.
  destruct (decide (topic ∈ PyDict.keys (file_handles p))) as [Hk|Hk].
  - rewrite Hin by done. intros [= <-]. lia.
  - rewrite Hout by done. apply Hbound.
Qed.

Lemma flush_limit_step e p : flush_limit (step e p) = flush_limit p.
Proof.
  destruct e as [topic message now|topic|]; simpl.
  - unfold publish, _get_file_handle.
    destruct (PyDict.get _ _); simpl; destruct (_ !! _); simpl;
      try reflexivity; destruct (bool_decide _); try reflexivity;
      by rewrite flush_limit_flush.
  - apply flush_limit_flush.
  - apply flush_limit_flush_all.
Qed.

Lemma keys_agree_step e p : keys_agree p → keys_agree (step e p).
Proof.
  destruct e; simpl;
    auto using keys_agree_publish, keys_agree_flush, keys_agree_flush_all.
Qed.

Lemma counts_bounded_step e p :
  1 ≤ flush_limit p → keys_agree p → counts_bounded p → counts_bounded (step e p).
Proof.
  destruct e; simpl;
    auto using counts_bounded_publish, counts_bounded_flush, counts_bounded_flush_all.
Qed.

Lemma run_events_snoc events e p : run (events ++ [e]) p = step e (run events p).
Proof. unfold run. by rewrite fold_left_app. Qed.

Lemma keys_agree_run events p : keys_agree p → keys_agree (run events p).
Proof.
  intros Hkeys. induction events as [|e events IH] using rev_ind; [done|].
  rewrite run_events_snoc. by apply keys_agree_step.
Qed.

Lemma flush_limit_run events p : flush_limit (run events p) = flush_limit p.
Proof.
  induction events as [|e events IH] using rev_ind; [done|].
  by rewrite run_events_snoc, flush_limit_step.
Qed.

Lemma counts_bounded_run events p :
  1 ≤ flush_limit p → keys_agree p → counts_bounded p →
  counts_bounded (run events p).
Proof.
  intros Hlim Hkeys Hbound. induction events as [|e events IH] using rev_ind; [done|].
  rewrite run_events_snoc. apply counts_bounded_step; [|by apply keys_agree_run|done].
  by rewrite flush_limit_run.
Qed.

Lemma pending_count_bound topic p :
  1 ≤ flush_limit p → counts_bounded p → 0 ≤ pending_count topic p < flush_limit p.
Proof.
  intros Hlim Hbound. unfold pending_count.
  destruct (write_counts p !! topic) as [c|] eqn:Hc; simpl; [eauto|lia].
Qed.

(** Publishes that together reach the limit end in the flush. *)
Lemma publishes_reach_limit topic msgs p :
  keys_agree p → 1 ≤ flush_limit p → msgs ≠ [] →
  pending_count topic p + Z.of_nat (List.length msgs) = flush_limit p →
  pending_count topic (run (publishes topic msgs) p) = 0
  ∧ visible_text topic (run (publishes topic msgs) p)
    = file_text topic p +:+ lines msgs
  ∧ file_text topic (run (publishes topic msgs) p)
    = file_text topic p +:+ lines msgs.
Proof.
  intros Hinv Hlim Hne. revert p Hinv Hlim.
  induction msgs as [|[message now] msgs IH]; [done|].
  intros p Hinv Hlim Hlen.
  destruct (publish_spec topic message now p Hinv) as (_ & Hfl & Htext & Hcase).
  change (run (publishes topic ((message, now) :: msgs)) p)
    with (run (publishes topic msgs) (publish topic message now p).2).
  destruct msgs as [|m msgs].
  - simpl in *. rewrite bool_decide_eq_true_2 in Hcase by lia.
    destruct Hcase as [Hcount Hvis].
    rewrite append_nil_r, Hvis, Htext. auto.
  - rewrite bool_decide_eq_false_2 in Hcase by (simpl List.length in Hlen; lia).
    destruct Hcase as [Hcount Hvis].
    destruct (IH ltac:(done) (publish topic message now p).2) as (H1 & H2 & H3).
    + by apply keys_agree_publish.
    + lia.
    + rewrite Hfl, Hcount. simpl List.length in *. lia.
    + rewrite H1, H2, H3, Htext, append_assoc. auto.
Qed.

(** C3: with [flush_limit = N >= 1], in every state the sink reaches the
    counter of every topic is at least 0 and below [N], so that the value
    it takes inside [publish] is at most [N]; every [publish] returns
    normally, and [N] successive publishes to a topic whose counter is 0
    leave the counter at 0 with all [N] lines in the file, without a call
    to [flush] or a run of the timer. *)
Theorem flush_threshold base limit fs events topic :
  1 ≤ limit →
  let p := run events (init base limit fs) in
  0 ≤ pending_count topic p < limit
  ∧ pending_count topic p + 1 ≤ limit
  ∧ (∀ message now, (publish topic message now p).1 = Ok tt)
  ∧ (∀ msgs, Z.of_nat (List.length msgs) = limit →
             pending_count topic p = 0 →
             pending_count topic (run (publishes topic msgs) p) = 0
             ∧ visible_text topic (run (publishes topic msgs) p)
               = file_text topic p +:+ lines msgs).
Proof.
  intros Hlim p.
  pose proof (keys_agree_run events _ (keys_agree_init base limit fs)) as Hkeys.
  pose proof (counts_bounded_run events (init base limit fs) Hlim
                (keys_agree_init base limit fs)
                (counts_bounded_init base limit fs)) as Hbound.
  pose proof (flush_limit_run events (init base limit fs)) as Hfl.
  fold p in Hkeys, Hbound, Hfl. simpl in Hfl.
  assert (Hcount : 0 ≤ pending_count topic p < limit)
    by (rewrite <- Hfl; apply pending_count_bound; [lia|done]).
  split; [exact Hcount|]. split; [lia|]. split.
  - intros message now. by apply publish_spec.
  - intros msgs Hlen Hzero.
    destruct (publishes_reach_limit topic msgs p) as (H1 & H2 & _); auto.
    + lia.
    + intros ->. simpl in Hlen. lia.
    + lia.
Qed.

Lemma flush_threshold_witness :
  pending_count "system_status"
    (run (publishes "system_status"
            [(Example.status_message, Example.now0);
             (Example.status_message, Example.now0)])
       (run [] (init "output" 2 ∅))) = 0.
Proof.
  apply (proj2 (proj2 (proj2 (flush_threshold "output" 2 ∅ [] "system_status"
                                ltac:(lia))))
           [(Example.status_message, Example.now0);
            (Example.status_message, Example.now0)]);
    reflexivity.
Defined.

(** What the body of [close] does once it runs: the task is cancelled,
    both dictionaries are empty, and a handle whose path no other handle
    shares has its pending text at the end of its file. *)
Lemma close_handles_other handles (fs : gmap string string) path :
  path ∉ map (λ e : string * TextIO, file_path e.2) handles →
  close_handles handles fs !! path = fs !! path.
Proof.
  revert fs. induction handles as [|[k h] handles IH]; intros fs Hnot; [done|].
  simpl in *. apply not_elem_of_cons in Hnot as [Hne Hnot].
  unfold close_handles in *. simpl. rewrite IH by done.
  by rewrite lookup_insert_ne.
Qed.

Lemma close_body_drains p :
  flush_task (await close p) = Cancelled
  ∧ file_handles (await close p) = []
  ∧ write_counts (await close p) = ∅
  ∧ (NoDup (map (λ e : string * TextIO, file_path e.2) (file_handles p)) →
     ∀ topic h, (topic, h) ∈ file_handles p →
       files (await close p) !! file_path h
       = Some (default "" (files p !! file_path h) +:+ pending h)).
Proof.
  repeat split. simpl. generalize (files p).
  induction (file_handles p) as [|[k h0] handles IH]; intros fs Hnd topic h Hin.
  - inversion Hin.
  - simpl in Hnd. apply NoDup_cons in Hnd as [Hnot Hnd].
    unfold close_handles in *. simpl.
    apply elem_of_cons in Hin as [[= -> ->]|Hin].
    + fold (close_handles handles
              (<[file_path h0 := default "" (fs !! file_path h0) +:+ pending h0]> fs)).
      rewrite close_handles_other by done. by rewrite lookup_insert_eq.
    + rewrite (IH _ Hnd topic h Hin). rewrite lookup_insert_ne; [done|].
      intros Heq. apply Hnot. rewrite Heq.
      apply (list_elem_of_fmap_2 (λ e : string * TextIO, file_path e.2) _ _ Hin).
Qed.

(** The handles keep their paths. *)
Lemma Forall_set {V} (P : string * V → Prop) (d : list (string * V)) k v :
  Forall P d → P (k, v) → Forall P (PyDict.set d k v).
Proof.
  intros Hd Hkv. induction d as [|[k0 v0] d IH]; simpl.
  - by constructor.
  - apply Forall_cons in Hd as [H0 Hd].
    destruct (decide (k = k0)); constructor; auto.
Qed.

Lemma get_elem_of {V} (d : list (string * V)) k v :
  PyDict.get d k = Some v → (k, v) ∈ d.
Proof.
  induction d as [|[k0 v0] d IH]; simpl; [discriminate|].
  destruct (decide (k = k0)) as [->|Hne].
  - intros [= ->]. apply list_elem_of_here.
  - intros Hget. apply list_elem_of_further. auto.
Qed.

Lemma base_dir_step e p : base_dir (step e p) = base_dir p.
Proof.
  destruct e as [topic message now|topic|]; simpl.
  - unfold publish, _get_file_handle.
    destruct (PyDict.get _ _); simpl; destruct (_ !! _); simpl;
      try reflexivity; destruct (bool_decide _); try reflexivity;
      unfold flush; simpl; destruct (PyDict.get _ _); reflexivity.
  - unfold flush. destruct (PyDict.get _ _); reflexivity.
  - unfold flush_all.
    destruct (flush_all_fold (file_handles p) (file_handles p) (write_counts p) (files p))
      as (h & c & f & -> & _). reflexivity.
Qed.






End FilePubSubFacts.

(** ** The fan-out publisher *)

Module InMemoryWithLogPublisherFacts.
Import InMemoryWithLogPublisher.

(** C2: [close] on the fan-out publisher returns with the log sink as it
    was: after one buffered [publish], the flush task is still running,
    the handle and its counter are still in the two dictionaries, and
    the record is pending, not in the file. *)
Theorem close_leaves_log_sink_running :
  (∀ p, close p = p)
  ∧ FilePubSub.flush_task (file_backed (close Example.after_one_publish))
    = FilePubSub.Running
  ∧ PyDict.keys (FilePubSub.file_handles (file_backed (close Example.after_one_publish)))
    = ["system_status"]
  ∧ FilePubSub.write_counts (file_backed (close Example.after_one_publish))
      !! "system_status" = Some 1
  ∧ FilePubSub.visible_text "system_status"
      (file_backed (close Example.after_one_publish)) = ""
  ∧ FilePubSub.file_text "system_status"
      (file_backed (close Example.after_one_publish))
    = FilePubSub.log_line Example.now0 Example.status_message.
Proof.
  split; [intros []; reflexivity|].
  repeat split; vm_compute; reflexivity.
Qed.

(** C7: [publish] on the fan-out publisher leaves the log sink as the log
    sink's own [publish] of the same topic and message leaves it; when
    that call returns normally, which it does in every state the sink
    reaches, the table sink's [publish] of the same topic and message
    runs next and gives the result; when it raises, the store is not
    touched. *)
Theorem publish_log_then_table topic message now p :
  let fb := FilePubSub.publish topic message now (file_backed p) in
  let kv := KeyValueStorePubSub.publish topic message (in_memory p) in
  file_backed (publish topic message now p).2 = fb.2
  ∧ (fb.1 = Ok tt →
     publish topic message now p
     = (kv.1, {| in_memory := kv.2; file_backed := fb.2 |}))
  ∧ (∀ e, fb.1 = Raise e →
     publish topic message now p
     = (Raise e, {| in_memory := in_memory p; file_backed := fb.2 |}))
  ∧ (FilePubSubRuns.keys_agree (file_backed p) → fb.1 = Ok tt).
Proof.
  intros fb kv. subst fb kv. unfold publish.
  destruct (FilePubSub.publish topic message now (file_backed p)) as [[[]|e] fb] eqn:Hfb;
    destruct (KeyValueStorePubSub.publish topic message (in_memory p)) as [r kv];
    simpl; repeat split; try done.
  - intros e' [= <-]. reflexivity.
  - intros Hinv. pose proof (FilePubSubFacts.publish_spec topic message now _ Hinv) as [H _].
    rewrite Hfb in H. discriminate H.
Qed.

Lemma publish_log_then_table_witness :
  publish "system_status" Example.status_message Example.now0 Example.fresh
  = ((KeyValueStorePubSub.publish "system_status" Example.status_message
        (in_memory Example.fresh)).1,
     {| in_memory :=
          (KeyValueStorePubSub.publish "system_status" Example.status_message
             (in_memory Example.fresh)).2;
        file_backed :=
          (FilePubSub.publish "system_status" Example.status_message Example.now0
             (file_backed Example.fresh)).2 |}).
Proof.
  apply (proj1 (proj2 (publish_log_then_table "system_status"
                         Example.status_message Example.now0 Example.fresh))).
  reflexivity.
Defined.

End InMemoryWithLogPublisherFacts.

(** ** JSON: what [loads] reads back from [dumps] *)

Module JsonFacts.
Import Json JsonDecode JsonText StringFacts.

(** *** Strings *)



(** *** Integers *)








(** *** Values *)

(** Induction over values, with the elements of lists and the values of
    dictionaries as premises. *)
Lemma value_rect' (P : value → Prop) :
  P VNone → (∀ b, P (VBool b)) → (∀ n, P (VInt n)) → (∀ s, P (VStr s)) →
  (∀ l, Forall P l → P (VList l)) →
  (∀ d, Forall (λ kv, P kv.2) d → P (VDict d)) →
  ∀ v, P v.
Proof.
  intros HNone HBool HInt HStr HList HDict.
  fix IH 1. intros [| b | n | s | l | d].
  - exact HNone.
  - apply HBool.
  - apply HInt.
  - apply HStr.
  - apply HList. induction l as [|x l IHl]; constructor; [apply IH|exact IHl].
  - apply HDict. induction d as [|[k x] d IHd]; constructor; [apply IH|exact IHd].
Qed.



















(** *** The fuel [loads] gives is enough *)





(** *** The dump is one line *)








(** *** The time stamp *)

Lemma is_digit_digit n : Datetime.is_digit (Datetime.digit n) = true.
Proof.
  unfold Datetime.is_digit, Datetime.digit.
  pose proof (N.mod_upper_bound n 10 ltac:(done)) as Hmod.
  revert Hmod. generalize (n mod 10)%N. intros m Hm.
  rewrite N_ascii_embedding by lia.
  apply andb_true_iff. split; apply N.leb_le; lia.
Qed.




End JsonFacts.

(** ** Documents and the values of the subsystem *)

Module DocumentFacts.
Import Json JsonDecode JsonText StringFacts JsonFacts PyDictFacts.
Import Document.








(** *** The scanner on documents extends the one on values *)








End DocumentFacts.

(** ** The log record *)

Module LogRecordFacts.
Import Json JsonDecode JsonText FilePubSub FilePubSubRuns.
Import StringFacts FilePubSubFacts JsonFacts DocumentFacts.







End LogRecordFacts.

(** * Further properties of the code *)

(** ** The table store: [delete], [clear_table], histories *)

Module StorageMore.
Import Storage StorageFacts.

Lemma delete_lookup t t' k (s : storage) :
  delete t k s !! t' = if decide (t' = t) then base.delete k <$> s !! t else s !! t'.
Proof.
  unfold delete. destruct (decide (t' = t)) as [->|Hne].
  - destruct (s !! t) as [tbl|] eqn:Ht; [|by rewrite Ht].
    destruct (tbl !! k) eqn:Hk.
    + by rewrite lookup_insert_eq.
    + rewrite Ht. simpl. by rewrite delete_id.
  - destruct (s !! t) as [tbl|]; [|done].
    destruct (tbl !! k); [|done]. by rewrite lookup_insert_ne.
Qed.

Lemma clear_table_lookup t t' (s : storage) :
  clear_table t s !! t' = if decide (t' = t) then (λ _, ∅) <$> s !! t else s !! t'.
Proof.
  unfold clear_table. destruct (decide (t' = t)) as [->|Hne].
  - destruct (s !! t) eqn:Ht; [by rewrite lookup_insert_eq|by rewrite Ht].
  - destruct (s !! t); [|done]. by rewrite lookup_insert_ne.
Qed.

(** X1: [delete] takes the key out and nothing else: the key then reads as
    [None], the table is the old one without the key and is still there,
    also when the key was its last one, and a second [delete] changes
    nothing. *)
Theorem delete_removes_only_the_key t k (s : storage) :
  read t k (delete t k s) = VNone
  ∧ read_all t (delete t k s) = base.delete k <$> read_all t s
  ∧ (∀ v, read_all t (delete t k (write t k v s))
          = Some (base.delete k (default ∅ (read_all t s))))
  ∧ delete t k (delete t k s) = delete t k s.
Proof.
  unfold read, read_all. repeat split.
  - rewrite delete_lookup, decide_True by done.
    destruct (s !! t) as [tbl|]; simpl; [by rewrite lookup_delete_eq|done].
  - by rewrite delete_lookup, decide_True.
  - intros v. rewrite delete_lookup, decide_True, write_lookup_same by done.
    simpl. by rewrite delete_insert_eq.
  - apply map_eq. intros t'. rewrite !delete_lookup.
    destruct (decide (t' = t)) as [->|]; [|done].
    rewrite decide_True by done.
    destruct (s !! t) as [tbl|]; simpl; [|done]. by rewrite delete_delete_eq.
Qed.

(** X2: [clear_table] empties the table and keeps it: every key of the
    table then reads as [None], [read_all] gives the empty table exactly
    when the table was there, and a second call changes nothing. *)
Theorem clear_table_empties t (s : storage) :
  (∀ k, read t k (clear_table t s) = VNone)
  ∧ read_all t (clear_table t s) = (λ _, ∅) <$> read_all t s
  ∧ clear_table t (clear_table t s) = clear_table t s.
Proof.
  unfold read, read_all. repeat split.
  - intros k. rewrite clear_table_lookup, decide_True by done.
    destruct (s !! t); reflexivity.
  - by rewrite clear_table_lookup, decide_True.
  - apply map_eq. intros t'. rewrite !clear_table_lookup.
    destruct (decide (t' = t)) as [->|]; [|done].
    rewrite decide_True by done. by destruct (s !! t).
Qed.

(** X3: writes to two different places commute: the store does not
    depend on the order in which they are made. *)
Theorem writes_commute t k v t' k' v' (s : storage) :
  (t, k) ≠ (t', k') →
  write t k v (write t' k' v' s) = write t' k' v' (write t k v s).
Proof.
  intros Hne. apply map_eq. intros t0.
  destruct (decide (t = t')) as [<-|Htt].
  - assert (Hk : k ≠ k') by congruence.
    destruct (decide (t0 = t)) as [->|Ht0].
    + rewrite !write_lookup_same. simpl. by rewrite insert_insert_ne.
    + by rewrite !write_lookup_other.
  - destruct (decide (t0 = t)) as [->|Ht0].
    + rewrite write_lookup_same, !write_lookup_other, write_lookup_same by done.
      reflexivity.
    + rewrite (write_lookup_other t t0) by done.
      destruct (decide (t0 = t')) as [->|Ht0'].
      * rewrite !write_lookup_same. by rewrite write_lookup_other.
      * by rewrite !write_lookup_other.
Qed.

Lemma writes_commute_witness :
  write "symbols" (KStr "BTCUSDT") (VInt 1)
    (write "symbols" (KStr "ETHUSDT") (VInt 2) init)
  = write "symbols" (KStr "ETHUSDT") (VInt 2)
      (write "symbols" (KStr "BTCUSDT") (VInt 1) init).
Proof. apply writes_commute. intros Heq. discriminate Heq. Defined.

(** X4: [read] answers [None] both for a key bound to [None] and for a
    key that is not there; [read_all] tells the two apart: after the
    write the table it returns binds the key to [None], after the delete
    it returns no table or one without the key. *)
Theorem read_cannot_tell_none_from_absent t k (s : storage) :
  read t k (write t k VNone s) = read t k (delete t k s)
  ∧ (read_all t (write t k VNone s) ≫= lookup k) = Some VNone
  ∧ (read_all t (delete t k s) ≫= lookup k) = None.
Proof.
  unfold read, read_all. repeat split.
  - rewrite write_lookup_same, delete_lookup, decide_True by done. simpl.
    rewrite lookup_insert_eq.
    destruct (s !! t); simpl; [by rewrite lookup_delete_eq|done].
  - rewrite write_lookup_same. simpl. apply lookup_insert_eq.
  - rewrite delete_lookup, decide_True by done.
    destruct (s !! t); simpl; [|done]. apply lookup_delete_eq.
Qed.

Lemma apply_table_exists t o (s : storage) :
  is_Some (apply o s !! t) ↔ is_Some (s !! t) ∨ writes_to t o = true.
Proof.
  destruct o as [t' k v|t' k|t']; simpl.
  - destruct (decide (t' = t)) as [->|Hne].
    + rewrite write_lookup_same, bool_decide_eq_true_2 by done.
      split; [auto|eauto].
    + rewrite write_lookup_other, bool_decide_eq_false_2 by done.
      split; [auto|]. by intros [?|?].
  - rewrite delete_lookup. destruct (decide (t = t')) as [->|];
      [rewrite fmap_is_Some|]; split; auto; by intros [?|?].
  - rewrite clear_table_lookup. destruct (decide (t = t')) as [->|];
      [rewrite fmap_is_Some|]; split; auto; by intros [?|?].
Qed.

(** X5: over any history of calls, a table is there at the end exactly
    when it was there at the start or some call wrote to it: only [write]
    makes a table, and no call takes one away. *)
Theorem table_exists_iff_written ops t (s : storage) :
  is_Some (read_all t (run ops s))
  ↔ is_Some (read_all t s) ∨ existsb (writes_to t) ops = true.
Proof.
  unfold read_all. induction ops as [|o ops IH] using rev_ind.
  - simpl. split; [auto|]. by intros [?|?].
  - rewrite run_ops_snoc, apply_table_exists, IH, existsb_app. simpl.
    rewrite orb_false_r, orb_true_iff. tauto.
Qed.

End StorageMore.

(** ** [parse_symbols_info] *)

Module ParsingMore.
Import Parsing ParsingShapes PyDictFacts.

Lemma for_each_app {A S} (body : S → A → res S) (l1 l2 : list A) (acc : S) :
  for_each body (l1 ++ l2)%list acc
  = (acc' ← for_each body l1 acc; for_each body l2 acc').
Proof.
  revert acc. induction l1 as [|x l1 IH]; intros acc; [reflexivity|].
  simpl. destruct (body acc x) as [acc'|e]; simpl; [apply IH|reflexivity].
Qed.

Lemma for_each_snoc {A S} (body : S → A → res S) (l : list A) (x : A) (acc : S) :
  for_each body (l ++ [x])%list acc = (acc' ← for_each body l acc; body acc' x).
Proof.
  rewrite for_each_app. destruct (for_each body l acc) as [acc'|e]; simpl; [|reflexivity].
  by destruct (body acc' x).
Qed.

Lemma symbol_body_entry (m : list (hkey * value)) (x : value) :
  symbol_body m x = (kr ← symbol_entry x; Ok (PyDict.set m kr.1 kr.2)).
Proof.
  unfold symbol_body, symbol_entry. destruct x; try reflexivity. simpl.
  destruct (py_iter _) as [filter_infos|e]; simpl; [|reflexivity].
  destruct (for_each filter_body filter_infos filter_vars_init) as [fv|e]; simpl;
    [|reflexivity].
  by destruct (py_hash _).
Qed.

Lemma filter_body_dict (fv : filter_vars) (d : dict) :
  filter_body fv (VDict d)
  = Ok (if py_eq_str (field d "filterType") "PRICE_FILTER"
        then FilterVars (field d "tickSize") (field d "minPrice") (field d "maxPrice")
               (min_qty fv) (max_qty fv) (step_size fv)
        else if py_eq_str (field d "filterType") "LOT_SIZE"
        then FilterVars (tick_size fv) (min_price fv) (max_price fv)
               (field d "minQty") (field d "maxQty") (field d "stepSize")
        else fv).
Proof.
  unfold filter_body, field. simpl.
  destruct (py_eq_str _ "PRICE_FILTER"); [reflexivity|].
  by destruct (py_eq_str _ "LOT_SIZE").
Qed.

Lemma last_filter_snoc ty (l : list value) (x : value) :
  last_filter ty (l ++ [x])%list = if has_type ty x then Some x else last_filter ty l.
Proof.
  unfold last_filter. rewrite List.filter_app. simpl.
  destruct (has_type ty x); [apply last_snoc|by rewrite app_nil_r].
Qed.

Lemma price_is_not_lot (v : value) :
  py_eq_str v "PRICE_FILTER" = true → py_eq_str v "LOT_SIZE" = false.
Proof.
  destruct v; simpl; try discriminate. intros H%bool_decide_eq_true. by subst.
Qed.

(** The filter loop on a list of dictionaries ends with the fields of the
    last filter of each of the two types. *)
Lemma filter_loop (l : list value) :
  forallb is_dict l = true →
  for_each filter_body l filter_vars_init = Ok (selected_filters l).
Proof.
  induction l as [|x l IH] using rev_ind; intros Hall; [reflexivity|].
  rewrite forallb_app in Hall. apply andb_true_iff in Hall as [Hl Hx].
  rewrite for_each_snoc, (IH Hl). simpl.
  destruct x as [| | | | |d]; try discriminate Hx.
  rewrite filter_body_dict. f_equal.
  unfold selected_filters. rewrite !last_filter_snoc. simpl has_type.
  destruct (py_eq_str (field d "filterType") "PRICE_FILTER") eqn:Hp.
  - rewrite (price_is_not_lot _ Hp). reflexivity.
  - destruct (py_eq_str (field d "filterType") "LOT_SIZE"); reflexivity.
Qed.

Lemma symbol_entry_dict (d : dict) (k : hkey) :
  filters_ok d = true → py_hash (field d "symbol") = Ok k →
  symbol_entry (VDict d)
  = Ok (k, symbol_record (field d "symbol") (field d "baseAsset")
             (field d "quoteAsset") (field d "status")
             (selected_filters (filters_of d))).
Proof.
  intros Hf Hk. unfold symbol_entry, filters_ok, filters_of in *. simpl.
  fold (field d "symbol"). rewrite Hk.
  destruct (PyDict.get d "filters") as [[| | | |l|]|]; try discriminate Hf; simpl.
  - by rewrite (filter_loop l Hf).
  - reflexivity.
Qed.

(** X6: the record of one instrument.  For an instrument whose filters
    are missing or a list of dictionaries and whose symbol hashes to [k],
    one turn of the loop binds [k] to the record of the instrument's own symbol,
    assets and status, the price fields of its last PRICE_FILTER and the
    lot fields of its last LOT_SIZE, [None] where there is no such filter
    or field; filters of other types count for nothing. *)
Theorem symbol_entry_record (d : dict) (k : hkey) (m : list (hkey * value)) :
  filters_ok d = true → py_hash (field d "symbol") = Ok k →
  symbol_body m (VDict d)
  = Ok (PyDict.set m k
          (symbol_record (field d "symbol") (field d "baseAsset")
             (field d "quoteAsset") (field d "status")
             (selected_filters (filters_of d)))).
Proof.
  intros Hf Hk. by rewrite symbol_body_entry, (symbol_entry_dict d k Hf Hk).
Qed.

Lemma symbol_entry_record_witness :
  symbol_body []
    (KeyValueStorePubSub.btcusdt (VStr "TRADING") (VStr "BTC") (VStr "USDT"))
  = Ok [(KStr "BTCUSDT",
         KeyValueStorePubSub.btcusdt_record (VStr "TRADING") (VStr "BTC") (VStr "USDT"))].
Proof.
  apply (symbol_entry_record
           [("symbol", VStr "BTCUSDT"); ("status", VStr "TRADING");
            ("baseAsset", VStr "BTC"); ("quoteAsset", VStr "USDT");
            ("filters", VList [KeyValueStorePubSub.price_filter;
                               KeyValueStorePubSub.lot_size])]
           (KStr "BTCUSDT") []); reflexivity.
Defined.

(** One turn of the loop on an empty result gives the turn's own binding. *)
Lemma symbol_body_nil x k r :
  symbol_entry x = Ok (k, r) ↔ symbol_body [] x = Ok [(k, r)].
Proof.
  rewrite symbol_body_entry.
  destruct (symbol_entry x) as [[k' r']|e]; simpl; split; intros [=]; by subst.
Qed.

Lemma symbol_entry_ok (x : value) :
  instrument_ok x = true → ∃ k r, symbol_entry x = Ok (k, r).
Proof.
  destruct x as [| | | | |d]; try discriminate. simpl.
  intros [Hh Hf]%andb_true_iff.
  assert (Hk : ∃ k, py_hash (field d "symbol") = Ok k).
  { destruct (field d "symbol"); try discriminate Hh; simpl; eauto. }
  destruct Hk as [k Hk]. rewrite (symbol_entry_dict d k Hf Hk). eauto.
Qed.

Lemma elem_of_set {K V} `{EqDecision K} (d : list (K * V)) k v kv :
  kv ∈ PyDict.set d k v → kv = (k, v) ∨ kv ∈ d.
Proof.
  induction d as [|[k0 v0] d IH]; simpl.
  - intros Hin. apply list_elem_of_singleton in Hin. auto.
  - destruct (decide (k = k0)) as [->|Hne]; intros Hin;
      apply elem_of_cons in Hin as [->|Hin]; auto.
    + right. by apply list_elem_of_further.
    + right. apply list_elem_of_here.
    + destruct (IH Hin) as [->|Hd]; auto. right. by apply list_elem_of_further.
Qed.

Lemma length_set {K V} `{EqDecision K} (d : list (K * V)) k v :
  (List.length (PyDict.set d k v) <= S (List.length d))%nat.
Proof.
  induction d as [|[k0 v0] d IH]; simpl; [lia|].
  destruct (decide (k = k0)); simpl; lia.
Qed.

(** The symbol loop over instruments of the right shape. *)
Lemma symbol_loop (l : list value) :
  forallb instrument_ok l = true →
  ∃ result,
    for_each symbol_body l [] = Ok result
    ∧ NoDup (PyDict.keys result)
    ∧ (List.length result <= List.length l)%nat
    ∧ (∀ k r, (k, r) ∈ result → ∃ x, x ∈ l ∧ symbol_entry x = Ok (k, r))
    ∧ (∀ x, x ∈ l → ∃ k r, symbol_entry x = Ok (k, r)
                           ∧ is_Some (PyDict.get result k)).
Proof.
  induction l as [|x l IH] using rev_ind; intros Hall.
  - exists []. repeat split; [constructor|simpl; lia| |].
    + intros k r Hin. inversion Hin.
    + intros x Hin. inversion Hin.
  - rewrite forallb_app in Hall. apply andb_true_iff in Hall as [Hl Hx].
    simpl in Hx. rewrite andb_true_r in Hx.
    destruct (IH Hl) as (result & Hrun & Hnd & Hlen & Hsound & Hcomplete).
    destruct (symbol_entry_ok x Hx) as (k & r & Hentry).
    exists (PyDict.set result k r).
    rewrite for_each_snoc, Hrun. simpl. rewrite symbol_body_entry, Hentry. simpl.
    repeat split.
    + by apply keys_set_NoDup.
    + rewrite length_app. simpl. pose proof (length_set result k r). lia.
    + intros k' r' Hin. apply elem_of_set in Hin as [[= -> ->]|Hin].
      * exists x. split; [|done]. apply elem_of_app. right. apply list_elem_of_here.
      * destruct (Hsound k' r' Hin) as (y & Hy & Hey).
        exists y. split; [|done]. apply elem_of_app. by left.
    + intros y Hy. apply elem_of_app in Hy as [Hy|Hy].
      * destruct (Hcomplete y Hy) as (k' & r' & Hey & Hsome).
        exists k', r'. split; [done|].
        destruct (decide (k = k')) as [->|Hne].
        -- rewrite get_set_eq. eauto.
        -- by rewrite get_set_ne.
      * apply list_elem_of_singleton in Hy as ->.
        exists k, r. split; [done|]. rewrite get_set_eq. eauto.
Qed.

(** X7: on a response whose ["symbols"] is missing or a list of
    instruments of that shape, [parse_symbols_info] returns normally; the
    result has no key twice, no more entries than there are instruments,
    every entry is the record of one of the instruments, and every
    instrument's key is bound. *)
Theorem parse_symbols_info_ok (response : dict) :
  response_ok response = true →
  ∃ result,
    parse_symbols_info response = Ok result
    ∧ NoDup (PyDict.keys result)
    ∧ (List.length result <= List.length (instruments response))%nat
    ∧ (∀ k r, (k, r) ∈ result →
              ∃ x, x ∈ instruments response ∧ symbol_body [] x = Ok [(k, r)])
    ∧ (∀ x, x ∈ instruments response →
            ∃ k r, symbol_body [] x = Ok [(k, r)] ∧ is_Some (PyDict.get result k)).
Proof.
  intros Hok.
  assert (Hloop : ∃ l, instruments response = l
                       ∧ parse_symbols_info response = for_each symbol_body l []
                       ∧ forallb instrument_ok l = true).
  { revert Hok. unfold response_ok, instruments, parse_symbols_info.
    destruct (PyDict.get response "symbols") as [[| | | |l|]|]; try discriminate;
      simpl; eauto. }
  destruct Hloop as (l & -> & -> & Hall).
  destruct (symbol_loop l Hall) as (result & Hrun & Hnd & Hlen & Hsound & Hcomplete).
  exists result. repeat split; try done.
  - intros k r Hin. destruct (Hsound k r Hin) as (x & Hx & Hentry).
    exists x. by rewrite <- symbol_body_nil.
  - intros x Hx. destruct (Hcomplete x Hx) as (k & r & Hentry & Hsome).
    exists k, r. by rewrite <- symbol_body_nil.
Qed.

Lemma parse_symbols_info_ok_witness :
  ∃ result,
    parse_symbols_info KeyValueStorePubSub.sample_response = Ok result
    ∧ NoDup (PyDict.keys result).
Proof.
  destruct (parse_symbols_info_ok KeyValueStorePubSub.sample_response eq_refl)
    as (result & Hrun & Hnd & _).
  exists result. split; assumption.
Defined.

(** X8: one more instrument at the end of the list adds its own binding
    to the result for the list before it: a symbol that the list had
    already is bound to the record of the later instrument, in the place
    of the earlier one, and the other bindings stay. *)
Theorem parse_symbols_info_snoc (r1 r2 : dict) (l : list value) (x : value) :
  PyDict.get r1 "symbols" = Some (VList l) →
  PyDict.get r2 "symbols" = Some (VList (l ++ [x])%list) →
  parse_symbols_info r2 = (m ← parse_symbols_info r1; symbol_body m x)
  ∧ (∀ m2, parse_symbols_info r2 = Ok m2 →
       ∃ m1 k r, parse_symbols_info r1 = Ok m1
                 ∧ symbol_body [] x = Ok [(k, r)]
                 ∧ PyDict.get m2 k = Some r
                 ∧ (∀ k', k' ≠ k → PyDict.get m2 k' = PyDict.get m1 k')).
Proof.
  intros H1 H2.
  assert (Heq : parse_symbols_info r2 = (m ← parse_symbols_info r1; symbol_body m x)).
  { unfold parse_symbols_info. rewrite H1, H2. simpl. rewrite for_each_snoc.
    by destruct (for_each symbol_body l []) as [m|e]. }
  split; [exact Heq|]. intros m2. rewrite Heq.
  destruct (parse_symbols_info r1) as [m1|e]; simpl; [|discriminate].
  rewrite symbol_body_entry.
  destruct (symbol_entry x) as [[k r]|e] eqn:Hentry; simpl; [|discriminate].
  intros [= <-]. exists m1, k, r. repeat split.
  - by apply symbol_body_nil.
  - apply get_set_eq.
  - intros k' Hne. by apply get_set_ne.
Qed.

Lemma parse_symbols_info_snoc_witness :
  parse_symbols_info
    [("symbols", VList ([VDict [("symbol", VStr "A"); ("status", VStr "OLD")]]
                          ++ [VDict [("symbol", VStr "A"); ("status", VStr "NEW")]]))]
  = (m ← parse_symbols_info
           [("symbols", VList [VDict [("symbol", VStr "A"); ("status", VStr "OLD")]])];
     symbol_body m (VDict [("symbol", VStr "A"); ("status", VStr "NEW")])).
Proof.
  apply (proj1 (parse_symbols_info_snoc
                  [("symbols", VList [VDict [("symbol", VStr "A"); ("status", VStr "OLD")]])]
                  [("symbols",
                    VList ([VDict [("symbol", VStr "A"); ("status", VStr "OLD")]]
                             ++ [VDict [("symbol", VStr "A"); ("status", VStr "NEW")]]))]
                  [VDict [("symbol", VStr "A"); ("status", VStr "OLD")]]
                  (VDict [("symbol", VStr "A"); ("status", VStr "NEW")])
                  eq_refl eq_refl)).
Defined.

(** X9: what makes [parse_symbols_info] raise.  A ["symbols"] that is
    [None], a boolean or an integer gives [TypeError]; after instruments
    of the right shape, one that is not a dictionary, or one with a filter
    that is not a dictionary, gives [AttributeError], and one whose symbol
    is a list or a dictionary gives [TypeError]; the instruments after it
    are not looked at. *)
Theorem parse_symbols_info_raises (response : dict) :
  (∀ v, PyDict.get response "symbols" = Some v →
        match v with VNone | VBool _ | VInt _ => True | _ => False end →
        parse_symbols_info response = Raise TypeError)
  ∧ (∀ good bad rest,
       PyDict.get response "symbols" = Some (VList (good ++ bad :: rest)%list) →
       forallb instrument_ok good = true →
       (is_dict bad = false → parse_symbols_info response = Raise AttributeError)
       ∧ (∀ d fgood fbad frest,
            bad = VDict d →
            PyDict.get d "filters" = Some (VList (fgood ++ fbad :: frest)%list) →
            forallb is_dict fgood = true → is_dict fbad = false →
            parse_symbols_info response = Raise AttributeError)
       ∧ (∀ d, bad = VDict d → filters_ok d = true →
               hashable (field d "symbol") = false →
               parse_symbols_info response = Raise TypeError)).
Proof.
  split.
  - intros v Hget Hv. unfold parse_symbols_info. rewrite Hget.
    by destruct v.
  - intros good bad rest Hget Hgood.
    destruct (symbol_loop good Hgood) as (m & Hrun & _).
    assert (Hstep : ∀ e, symbol_entry bad = Raise e →
                         parse_symbols_info response = Raise e).
    { intros e He. unfold parse_symbols_info. rewrite Hget. simpl.
      rewrite for_each_app, Hrun. simpl. rewrite symbol_body_entry, He. reflexivity. }
    repeat split.
    + intros Hbad. apply Hstep. by destruct bad.
    + intros d fgood fbad frest -> Hf Hfgood Hfbad. apply Hstep.
      unfold symbol_entry. simpl. rewrite Hf. simpl.
      rewrite for_each_app, (filter_loop fgood Hfgood). simpl.
      by destruct fbad.
    + intros d -> Hf Hh. apply Hstep.
      unfold symbol_entry, filters_ok in *. simpl. fold (field d "symbol").
      destruct (PyDict.get d "filters") as [[| | | |l|]|]; try discriminate Hf; simpl.
      * rewrite (filter_loop l Hf). simpl. by destruct (field d "symbol").
      * by destruct (field d "symbol").
Qed.

Lemma parse_symbols_info_raises_witness :
  parse_symbols_info [("symbols", VList ([] ++ VStr "BTCUSDT" :: []))]
  = Raise AttributeError.
Proof.
  apply (proj1 (proj2 (parse_symbols_info_raises
                         [("symbols", VList ([] ++ VStr "BTCUSDT" :: []))])
                  [] (VStr "BTCUSDT") [] eq_refl eq_refl)).
  reflexivity.
Defined.

End ParsingMore.

(** ** The table sink: what [publish] leaves in the store *)

Module KeyValueStorePubSubMore.
Import Parsing ParsingShapes Storage KeyValueStorePubSub TableItems.
Import PyDictFacts StorageFacts KeyValueStorePubSubFacts ParsingMore.

Lemma insert_items_snoc items kv (tbl : gmap hkey value) :
  insert_items (items ++ [kv])%list tbl = <[kv.1 := kv.2]> (insert_items items tbl).
Proof. unfold insert_items. by rewrite fold_left_app. Qed.

(** The binding a key has after the loop is the last one the items give
    it. *)
Lemma insert_items_lookup items (tbl : gmap hkey value) k :
  insert_items items tbl !! k
  = match PyDict.get (reverse items) k with
    | Some v => Some v
    | None => tbl !! k
    end.
Proof.
  induction items as [|[k0 v0] items IH] using rev_ind; [reflexivity|].
  rewrite insert_items_snoc, reverse_snoc. simpl.
  destruct (decide (k = k0)) as [->|Hne].
  - by rewrite lookup_insert_eq.
  - by rewrite lookup_insert_ne.
Qed.

Lemma get_elem_of_iff {K V} `{EqDecision K} (d : list (K * V)) k v :
  NoDup (PyDict.keys d) → PyDict.get d k = Some v ↔ (k, v) ∈ d.
Proof.
  unfold PyDict.keys. induction d as [|[k0 v0] d IH]; simpl; intros Hnd.
  - split; [discriminate|]. intros Hin. inversion Hin.
  - apply NoDup_cons in Hnd as [Hnot Hnd]. rewrite elem_of_cons.
    destruct (decide (k = k0)) as [->|Hne].
    + split.
      * intros [= ->]. by left.
      * intros [[= ->]|Hin]; [done|]. exfalso. apply Hnot.
        apply (list_elem_of_fmap_2 fst _ _ Hin).
    + rewrite (IH Hnd). split; [auto|]. intros [[= -> ->]|Hin]; [done|done].
Qed.

Lemma get_reverse {K V} `{EqDecision K} (d : list (K * V)) k :
  NoDup (PyDict.keys d) → PyDict.get (reverse d) k = PyDict.get d k.
Proof.
  intros Hnd.
  assert (Hnd' : NoDup (PyDict.keys (reverse d))).
  { unfold PyDict.keys in *.
    change (NoDup (fst <$> reverse d)). by rewrite fmap_reverse, reverse_Permutation. }
  destruct (PyDict.get (reverse d) k) as [v|] eqn:Hr.
  - apply (get_elem_of_iff _ _ _ Hnd') in Hr. rewrite elem_of_reverse in Hr.
    symmetry. by apply get_elem_of_iff.
  - destruct (PyDict.get d k) as [v|] eqn:Hd; [|done].
    apply (get_elem_of_iff _ _ _ Hnd) in Hd. apply elem_of_reverse_2 in Hd.
    apply (get_elem_of_iff _ _ _ Hnd') in Hd. congruence.
Qed.

(** The store after the loop of writes into one table. *)
Lemma write_items_lookup t t' items (s : storage) :
  write_items t items s !! t'
  = if decide (t' = t)
    then match items with
         | [] => s !! t
         | _ => Some (insert_items items (default ∅ (s !! t)))
         end
    else s !! t'.
Proof.
  revert s. induction items as [|[k v] items IH]; intros s.
  - simpl. by destruct (decide (t' = t)) as [->|].
  - change (write_items t ((k, v) :: items) s)
      with (write_items t items (write t k v s)).
    rewrite IH. destruct (decide (t' = t)) as [->|Hne].
    + rewrite write_lookup_same. by destruct items.
    + by rewrite write_lookup_other.
Qed.

Lemma read_write_items t items (s : storage) k :
  read t k (write_items t items s)
  = match PyDict.get (reverse items) k with
    | Some v => v
    | None => read t k s
    end.
Proof.
  unfold read. rewrite write_items_lookup, decide_True by done.
  destruct items as [|kv items].
  - reflexivity.
  - generalize (kv :: items). intros l.
    change (default VNone (insert_items l (default ∅ (s !! t)) !! k)
            = match PyDict.get (reverse l) k with
              | Some v => v
              | None => default VNone (default ∅ (s !! t) !! k)
              end).
    rewrite insert_items_lookup. by destruct (PyDict.get (reverse l) k).
Qed.

Lemma get_items (message : dict) k :
  PyDict.get (items message) (KStr k) = PyDict.get message k.
Proof.
  unfold items. induction message as [|[k0 v0] message IH]; [reflexivity|].
  simpl. destruct (decide (k = k0)) as [->|Hne].
  - by rewrite decide_True.
  - rewrite decide_False by congruence. apply IH.
Qed.

Lemma keys_items_NoDup (message : dict) :
  NoDup (map fst message) → NoDup (PyDict.keys (items message)).
Proof.
  intros Hnd.
  assert (Heq : PyDict.keys (items message) = KStr <$> map fst message).
  { unfold PyDict.keys, items. induction message as [|kv message IH]; [done|].
    simpl. f_equal. apply IH. by apply NoDup_cons in Hnd as [_ Hnd]. }
  rewrite Heq. apply NoDup_fmap_2; [|done]. intros a b [=]. done.
Qed.

(** X10: on ['system_status'] and ['account_info'], [publish] returns
    normally; afterwards every key of the message reads as its value in
    the table of the topic, every other key of that table and every other
    table read as before, and an empty message leaves the store as it
    was, without making the table. *)
Theorem publish_status_effect topic (message : dict) (s : storage) :
  topic ∈ ["system_status"; "account_info"] →
  NoDup (map fst message) →
  (publish topic message s).1 = Ok tt
  ∧ (∀ k v, PyDict.get message k = Some v →
            read topic (KStr k) (publish topic message s).2 = v)
  ∧ (∀ hk, PyDict.get (items message) hk = None →
           read topic hk (publish topic message s).2 = read topic hk s)
  ∧ (∀ t, t ≠ topic → read_all t (publish topic message s).2 = read_all t s)
  ∧ (message = [] → (publish topic message s).2 = s)
  ∧ (message ≠ [] → is_Some (read_all topic (publish topic message s).2)).
Proof.
  intros Htopic Hnd.
  assert (Hpub : publish topic message s = (Ok tt, write_items topic (items message) s)).
  { unfold publish, publish_exchange_info, publish_status_or_account.
    rewrite decide_False.
    - by rewrite bool_decide_eq_true_2.
    - intros ->. repeat (apply elem_of_cons in Htopic as [Heq|Htopic];
                         [discriminate Heq|]). inversion Htopic. }
  rewrite Hpub. simpl. pose proof (keys_items_NoDup message Hnd) as Hnd'.
  repeat split.
  - intros k v Hget. rewrite read_write_items, get_reverse, get_items, Hget; done.
  - intros hk Hget. by rewrite read_write_items, get_reverse, Hget.
  - intros t Hne. unfold read_all. by rewrite write_items_lookup, decide_False.
  - by intros ->.
  - intros Hne. unfold read_all. rewrite write_items_lookup, decide_True by done.
    destruct message; [done|]. simpl. eauto.
Qed.

Lemma publish_status_effect_witness :
  read "system_status" (KStr "status")
    (publish "system_status" [("status", VInt 0); ("msg", VStr "normal")] init).2
  = VInt 0.
Proof.
  refine (proj1 (proj2 (publish_status_effect "system_status"
                          [("status", VInt 0); ("msg", VStr "normal")] init _ _))
            "status" (VInt 0) eq_refl).
  - apply list_elem_of_here.
  - repeat (apply NoDup_cons; split;
            [intros Hin; repeat (apply elem_of_cons in Hin as [Heq|Hin];
                                 [discriminate Heq|]); inversion Hin|]).
    apply NoDup_nil_2.
Defined.

Lemma symbol_loop_NoDup (l : list value) (acc m : list (hkey * value)) :
  for_each symbol_body l acc = Ok m → NoDup (PyDict.keys acc) → NoDup (PyDict.keys m).
Proof.
  revert acc. induction l as [|x l IH]; intros acc; simpl.
  - by intros [= ->].
  - rewrite symbol_body_entry.
    destruct (symbol_entry x) as [[k r]|e]; simpl; [|discriminate].
    intros Hrun Hnd. apply (IH _ Hrun). by apply keys_set_NoDup.
Qed.

Lemma parse_symbols_info_NoDup (message : dict) infos :
  parse_symbols_info message = Ok infos → NoDup (PyDict.keys infos).
Proof.
  unfold parse_symbols_info.
  destruct (py_iter _) as [l|e]; simpl; [|discriminate].
  intros Hrun. apply (symbol_loop_NoDup _ _ _ Hrun). constructor.
Qed.

(** X11: an ['exchange_info'] message that parses and has ["rateLimits"]
    is stored whole: the call returns normally, every parsed record reads
    back under its key in ['symbols'], the rate limits read back as they
    came, and every other key of the two tables and every other table reads
    as before. *)
Theorem publish_exchange_info_effect (message : dict) (s : storage) infos rate_limits :
  parse_symbols_info message = Ok infos →
  PyDict.get message "rateLimits" = Some rate_limits →
  (publish "exchange_info" message s).1 = Ok tt
  ∧ read "exchange_info" (KStr "rateLimits") (publish "exchange_info" message s).2
    = rate_limits
  ∧ (∀ k r, PyDict.get infos k = Some r →
            read "symbols" k (publish "exchange_info" message s).2 = r)
  ∧ (∀ k, PyDict.get infos k = None →
          read "symbols" k (publish "exchange_info" message s).2 = read "symbols" k s)
  ∧ (∀ k, k ≠ KStr "rateLimits" →
          read "exchange_info" k (publish "exchange_info" message s).2
          = read "exchange_info" k s)
  ∧ (∀ t, t ≠ "symbols" → t ≠ "exchange_info" →
          read_all t (publish "exchange_info" message s).2 = read_all t s).
Proof.
  intros Hparse Hrl.
  assert (Hpub : publish "exchange_info" message s
                 = (Ok tt, write "exchange_info" (KStr "rateLimits") rate_limits
                             (write_items "symbols" infos s))).
  { unfold publish, publish_exchange_info. rewrite decide_True by done.
    rewrite Hparse, Hrl. reflexivity. }
  rewrite Hpub. simpl. pose proof (parse_symbols_info_NoDup _ _ Hparse) as Hnd.
  repeat split.
  - apply read_write_same.
  - intros k r Hget. rewrite read_write_other_table by done.
    by rewrite read_write_items, get_reverse, Hget.
  - intros k Hget. rewrite read_write_other_table by done.
    by rewrite read_write_items, get_reverse, Hget.
  - intros k Hne. unfold read. rewrite write_lookup_same. simpl.
    rewrite lookup_insert_ne by done.
    by rewrite write_items_lookup, decide_False.
  - intros t Hs He. unfold read_all.
    rewrite write_lookup_other by done. by rewrite write_items_lookup, decide_False.
Qed.

Lemma publish_exchange_info_effect_witness :
  read "exchange_info" (KStr "rateLimits")
    (publish "exchange_info" (("rateLimits", VList [VInt 1200]) :: sample_response) init).2
  = VList [VInt 1200].
Proof.
  apply (proj1 (proj2 (publish_exchange_info_effect
                         (("rateLimits", VList [VInt 1200]) :: sample_response) init
                         [(KStr "BTCUSDT",
                           btcusdt_record (VStr "TRADING") (VStr "BTC") (VStr "USDT"))]
                         (VList [VInt 1200]) eq_refl eq_refl))).
Defined.

Lemma write_items_dom t items (s : storage) t' tbl :
  s !! t' = Some tbl →
  ∃ tbl', write_items t items s !! t' = Some tbl' ∧ dom tbl ⊆ dom tbl'.
Proof.
  revert s tbl. induction items as [|[k v] items IH]; intros s tbl Hs.
  - exists tbl. by split.
  - change (write_items t ((k, v) :: items) s)
      with (write_items t items (write t k v s)).
    destruct (decide (t' = t)) as [->|Hne].
    + destruct (IH (write t k v s) (<[k := v]> tbl)) as (tbl' & Hl & Hsub).
      { by rewrite write_lookup_same, Hs. }
      exists tbl'. split; [done|]. rewrite dom_insert_L in Hsub. set_solver.
    + apply IH. by rewrite write_lookup_other.
Qed.

(** X12: [publish] takes nothing away.  Whatever the topic, the message
    and the result, every table that was there is still there and has
    every key it had: an instrument or a field that a later message does
    not mention stays in the store. *)
Theorem publish_never_removes topic (message : dict) (s : storage) t tbl :
  read_all t s = Some tbl →
  ∃ tbl', read_all t (publish topic message s).2 = Some tbl' ∧ dom tbl ⊆ dom tbl'.
Proof.
  unfold read_all. intros Hs.
  assert (Hfirst : ∃ tbl1, (publish_exchange_info topic message s).2 !! t = Some tbl1
                           ∧ dom tbl ⊆ dom tbl1).
  { unfold publish_exchange_info. destruct (decide (topic = "exchange_info")) as [->|];
      [|by exists tbl].
    destruct (parse_symbols_info message) as [infos|e]; [|by exists tbl].
    destruct (write_items_dom "symbols" infos s t tbl Hs) as (tbl1 & H1 & Hsub1).
    destruct (PyDict.get message "rateLimits") as [rl|]; simpl; [|by exists tbl1].
    destruct (decide (t = "exchange_info")) as [->|Hne].
    - rewrite write_lookup_same, H1. simpl. eexists. split; [done|].
      rewrite dom_insert_L. set_solver.
    - rewrite write_lookup_other by done. by exists tbl1. }
  destruct Hfirst as (tbl1 & H1 & Hsub1). unfold publish.
  destruct (publish_exchange_info topic message s) as [[[]|e] s1]; simpl in *;
    [|by exists tbl1].
  unfold publish_status_or_account. destruct (bool_decide _); simpl; [|by exists tbl1].
  destruct (write_items_dom topic (items message) s1 t tbl1 H1) as (tbl2 & H2 & Hsub2).
  exists tbl2. split; [done|]. set_solver.
Qed.

Lemma publish_never_removes_witness :
  ∃ tbl', read_all "symbols"
            (publish "exchange_info" [("symbols", VList [])]
               (write "symbols" (KStr "OLD") (VStr "record") init)).2 = Some tbl'
          ∧ dom (<[KStr "OLD" := VStr "record"]> (∅ : table)) ⊆ dom tbl'.
Proof.
  apply (publish_never_removes "exchange_info" [("symbols", VList [])]
           (write "symbols" (KStr "OLD") (VStr "record") init) "symbols").
  reflexivity.
Defined.

Lemma insert_items_idemp items (tbl : gmap hkey value) :
  insert_items items (insert_items items tbl) = insert_items items tbl.
Proof.
  apply map_eq. intros k. rewrite !insert_items_lookup.
  by destruct (PyDict.get (reverse items) k).
Qed.

Lemma write_items_idemp t items (s : storage) :
  write_items t items (write_items t items s) = write_items t items s.
Proof.
  apply map_eq. intros t'. rewrite !write_items_lookup.
  destruct (decide (t' = t)) as [->|]; [|done].
  rewrite decide_True by done.
  destruct items as [|kv items]; [done|]. generalize (kv :: items). intros l.
  change (Some (insert_items l (insert_items l (default ∅ (s !! t))))
          = Some (insert_items l (default ∅ (s !! t)))).
  by rewrite insert_items_idemp.
Qed.

Lemma write_items_write_comm t items t' k v (s : storage) :
  t ≠ t' →
  write_items t items (write t' k v s) = write t' k v (write_items t items s).
Proof.
  intros Hne. apply map_eq. intros t0. rewrite write_items_lookup.
  destruct (decide (t0 = t)) as [->|Ht0].
  - rewrite !write_lookup_other by done. by rewrite write_items_lookup, decide_True.
  - destruct (decide (t0 = t')) as [->|Ht0'].
    + rewrite !write_lookup_same. by rewrite write_items_lookup, decide_False.
    + rewrite !write_lookup_other by done. by rewrite write_items_lookup, decide_False.
Qed.

(** X13: [publish] is idempotent: the same message on the same topic a
    second time gives the same result and leaves the store the first call
    left. *)
Theorem publish_twice topic (message : dict) (s : storage) :
  publish topic message (publish topic message s).2 = publish topic message s.
Proof.
  unfold publish, publish_exchange_info, publish_status_or_account.
  destruct (decide (topic = "exchange_info")) as [->|Hne].
  - destruct (parse_symbols_info message) as [infos|e]; simpl.
    + destruct (PyDict.get message "rateLimits") as [rl|]; simpl.
      * rewrite write_items_write_comm by done.
        by rewrite write_items_idemp, write_write.
      * by rewrite write_items_idemp.
    + reflexivity.
  - simpl. destruct (bool_decide (topic ∈ ["system_status"; "account_info"])); simpl.
    + by rewrite write_items_idemp.
    + reflexivity.
Qed.

Lemma publish_keeps_table topic (message : dict) (s : storage) t :
  t ≠ topic → (t ≠ "symbols" ∨ topic ≠ "exchange_info") →
  (publish topic message s).2 !! t = s !! t.
Proof.
  intros Hne Hsym. unfold publish, publish_exchange_info, publish_status_or_account.
  destruct (decide (topic = "exchange_info")) as [->|Hne'].
  - destruct Hsym as [Hsym|]; [|done].
    destruct (parse_symbols_info message) as [infos|e]; simpl; [|done].
    destruct (PyDict.get message "rateLimits") as [rl|]; simpl.
    + rewrite write_lookup_other by done.
      by rewrite write_items_lookup, decide_False.
    + by rewrite write_items_lookup, decide_False.
  - simpl. destruct (bool_decide _); simpl; [|done].
    by rewrite write_items_lookup, decide_False.
Qed.

(** X14: each topic writes its own tables only.  [publish] leaves every
    table other than the one named after the topic as it was, but for
    ['symbols'] on topic ['exchange_info']; and an ['exchange_info']
    message on which the parser raises leaves the whole store as it was
    and passes the exception on. *)
Theorem publish_writes_own_tables topic (message : dict) (s : storage) :
  (∀ t, t ≠ topic → (t ≠ "symbols" ∨ topic ≠ "exchange_info") →
        read_all t (publish topic message s).2 = read_all t s)
  ∧ (∀ e, topic = "exchange_info" → parse_symbols_info message = Raise e →
          publish topic message s = (Raise e, s)).
Proof.
  split.
  - intros t Hne Hsym. by apply publish_keeps_table.
  - intros e -> Hparse. unfold publish, publish_exchange_info.
    rewrite decide_True by done. by rewrite Hparse.
Qed.

Lemma publish_writes_own_tables_witness :
  publish "exchange_info" [("symbols", VInt 5)] init = (Raise TypeError, init).
Proof.
  apply (proj2 (publish_writes_own_tables "exchange_info" [("symbols", VInt 5)] init)
           TypeError eq_refl eq_refl).
Defined.

End KeyValueStorePubSubMore.

(** ** The log sink: files, [flush], the timer and [close] *)

Module FilePubSubMore.
Import FilePubSub FilePubSubRuns FilePubSubHistory.
Import PyDictFacts StringFacts FilePubSubFacts.

Lemma append_length (s1 s2 : string) :
  String.length (s1 +:+ s2) = (String.length s1 + String.length s2)%nat.
Proof.
  induction s1 as [|c s1 IH]; [reflexivity|].
  rewrite append_cons. simpl. by rewrite IH.
Qed.

Lemma append_cancel_r (s1 s2 x : string) : s1 +:+ x = s2 +:+ x → s1 = s2.
Proof.
  revert s2. induction s1 as [|c s1 IH]; intros [|c2 s2] Heq.
  - reflexivity.
  - apply (f_equal String.length) in Heq.
    rewrite !append_length in Heq. simpl in Heq. lia.
  - apply (f_equal String.length) in Heq.
    rewrite !append_length in Heq. simpl in Heq. lia.
  - rewrite !append_cons in Heq. injection Heq as -> Heq. f_equal. by apply IH.
Qed.

Lemma relative_log topic :
  relative topic = true → starts_with_sep (topic +:+ ".log") = false.
Proof. unfold relative. destruct topic; [reflexivity|]. simpl. by intros ->%negb_true_iff. Qed.

Lemma path_join_inj base topic1 topic2 :
  relative topic1 = true → relative topic2 = true →
  path_join base (topic1 +:+ ".log") = path_join base (topic2 +:+ ".log") →
  topic1 = topic2.
Proof.
  intros H1%relative_log H2%relative_log. unfold path_join. rewrite H1, H2.
  destruct (bool_decide (base = "") || ends_with_sep base); intros Heq.
  - apply (inj (String.app base)) in Heq. by apply append_cancel_r in Heq.
  - apply (inj (String.app base)) in Heq. apply (inj (String.app "/")) in Heq.
    by apply append_cancel_r in Heq.
Qed.

(** X15: topics that do not start with ['/'] have files of their own:
    two of them with the same file path are the same topic.  A topic that
    starts with ['/'] has the path [<topic>.log] whatever the base
    directory. *)
Theorem topic_files_distinct base topic1 topic2 :
  (relative topic1 = true → relative topic2 = true →
   path_join base (topic1 +:+ ".log") = path_join base (topic2 +:+ ".log") →
   topic1 = topic2)
  ∧ (relative topic1 = false →
     path_join base (topic1 +:+ ".log") = topic1 +:+ ".log").
Proof.
  split; [apply path_join_inj|].
  unfold relative, path_join. destruct topic1 as [|c topic1]; [discriminate|].
  simpl. by intros ->%negb_false_iff.
Qed.

Lemma topic_files_distinct_witness :
  path_join "/data" ("/tmp/x" +:+ ".log") = "/tmp/x" +:+ ".log".
Proof. apply (proj2 (topic_files_distinct "/data" "/tmp/x" "")). reflexivity. Defined.

Lemma set_set {V} (d : list (string * V)) k v1 v2 :
  PyDict.set (PyDict.set d k v1) k v2 = PyDict.set d k v2.
Proof.
  induction d as [|[k0 v0] d IH]; simpl.
  - by rewrite decide_True.
  - destruct (decide (k = k0)) as [->|Hne]; simpl.
    + by rewrite decide_True.
    + rewrite decide_False by done. by rewrite IH.
Qed.

Lemma flush_keeps_text topic p :
  file_text topic (flush topic p) = file_text topic p
  ∧ visible_text topic (flush topic p) = file_text topic p.
Proof.
  unfold visible_text, file_text, flush.
  destruct (PyDict.get (file_handles p) topic) as [h|] eqn:Hh; simpl.
  - rewrite !get_set_eq. simpl. by rewrite !lookup_insert_eq, !append_nil_r.
  - by rewrite Hh.
Qed.

(** X16: [flush(topic)] puts the pending text of the topic into its file
    and loses none of it: afterwards the counter is 0 and the file shows
    all that was written; the handles and counters of the other topics
    are as before; on a topic that has no handle the call does nothing,
    and a second [flush] changes nothing. *)
Theorem flush_effect topic p :
  keys_agree p →
  pending_count topic (flush topic p) = 0
  ∧ visible_text topic (flush topic p) = file_text topic p
  ∧ file_text topic (flush topic p) = file_text topic p
  ∧ (∀ topic', topic' ≠ topic →
       PyDict.get (file_handles (flush topic p)) topic'
       = PyDict.get (file_handles p) topic'
       ∧ write_counts (flush topic p) !! topic' = write_counts p !! topic')
  ∧ (PyDict.get (file_handles p) topic = None → flush topic p = p)
  ∧ flush topic (flush topic p) = flush topic p.
Proof.
  intros Hkeys. unfold pending_count, visible_text, file_text, flush.
  destruct (PyDict.get (file_handles p) topic) as [h|] eqn:Hh; simpl.
  - rewrite !get_set_eq, !lookup_insert_eq. simpl.
    rewrite !append_nil_r.
    repeat split; try done.
    + by rewrite get_set_ne.
    + by rewrite lookup_insert_ne.
    + by rewrite set_set, !insert_insert_eq.
  - rewrite Hh, (keys_agree_absent topic p Hkeys Hh). by repeat split.
Qed.

Lemma flush_effect_witness :
  visible_text "system_status"
    (flush "system_status"
       (run [Publish "system_status" Example.status_message Example.now0]
          (init "output" 10 ∅)))
  = file_text "system_status"
      (run [Publish "system_status" Example.status_message Example.now0]
         (init "output" 10 ∅)).
Proof.
  apply (proj1 (proj2 (flush_effect "system_status"
                         (run [Publish "system_status" Example.status_message
                                 Example.now0]
                            (init "output" 10 ∅))
                         (keys_agree_run _ _ (keys_agree_init "output" 10 ∅))))).
Defined.

Lemma publish_frame topic topic' (message : Parsing.dict) now p :
  topic' ≠ topic →
  PyDict.get (file_handles (publish topic message now p).2) topic'
  = PyDict.get (file_handles p) topic'
  ∧ write_counts (publish topic message now p).2 !! topic'
    = write_counts p !! topic'.
Proof.
  intros Hne. unfold publish, _get_file_handle.
  destruct (PyDict.get (file_handles p) topic) as [h|] eqn:Hh; simpl.
  - destruct (write_counts p !! topic) as [c|]; simpl.
    + destruct (bool_decide _); simpl.
      * unfold flush. simpl. rewrite get_set_eq. simpl.
        by rewrite !get_set_ne, !lookup_insert_ne.
      * by rewrite get_set_ne, lookup_insert_ne.
    + by rewrite get_set_ne.
  - rewrite lookup_insert_eq. simpl. destruct (bool_decide _); simpl.
    + unfold flush. simpl. rewrite get_set_eq. simpl.
      by rewrite !get_set_ne, !lookup_insert_ne.
    + by rewrite !get_set_ne, !lookup_insert_ne.
Qed.

(** X17: a [publish] on one topic leaves the handle and the counter of
    every other topic as they were, also when it ends in the flush of its
    own topic. *)
Theorem publish_other_topic topic topic' (message : Parsing.dict) now p :
  topic' ≠ topic →
  PyDict.get (file_handles (publish topic message now p).2) topic'
  = PyDict.get (file_handles p) topic'
  ∧ write_counts (publish topic message now p).2 !! topic'
    = write_counts p !! topic'.
Proof. apply publish_frame. Qed.

Lemma publish_other_topic_witness :
  write_counts
    (publish "exchange_info" [] Example.now0
       (run [Publish "system_status" Example.status_message Example.now0]
          (init "output" 1 ∅))).2 !! "system_status"
  = write_counts
      (run [Publish "system_status" Example.status_message Example.now0]
         (init "output" 1 ∅)) !! "system_status".
Proof.
  apply (proj2 (publish_other_topic "exchange_info" "system_status" []
                  Example.now0 _ ltac:(discriminate))).
Defined.

Lemma publishes_below_limit base limit fs events topic msgs :
  let p := run events (init base limit fs) in
  pending_count topic p + Z.of_nat (List.length msgs) < limit →
  pending_count topic (run (publishes topic msgs) p)
  = pending_count topic p + Z.of_nat (List.length msgs)
  ∧ visible_text topic (run (publishes topic msgs) p) = visible_text topic p
  ∧ file_text topic (run (publishes topic msgs) p) = file_text topic p +:+ lines msgs.
Proof.
  intros p.
  pose proof (keys_agree_run events _ (keys_agree_init base limit fs)) as Hkeys.
  pose proof (flush_limit_run events (init base limit fs)) as Hfl.
  fold p in Hkeys, Hfl. simpl in Hfl. rewrite <- Hfl. clear Hfl.
  generalize dependent p. intros p. revert p.
  induction msgs as [|[message now] msgs IH]; intros p Hkeys Hlen.
  - simpl. rewrite append_nil_r. repeat split. lia.
  - destruct (publish_spec topic message now p Hkeys) as (_ & Hfl & Htext & Hcase).
    change (run (publishes topic ((message, now) :: msgs)) p)
      with (run (publishes topic msgs) (publish topic message now p).2).
    simpl List.length in Hlen.
    rewrite bool_decide_eq_false_2 in Hcase by lia.
    destruct Hcase as [Hcount Hvis].
    destruct (IH (publish topic message now p).2) as (H1 & H2 & H3).
    + by apply keys_agree_publish.
    + rewrite Hfl, Hcount. lia.
    + rewrite H1, H2, H3, Hcount, Hvis, Htext, append_assoc. simpl List.length.
      repeat split. lia.
Qed.

(** X18: below the limit the counter counts the publishes.  From any state
    the sink reaches, publishes to one topic that keep its counter below
    [flush_limit] raise the counter by their number, none of them resets
    it, and add their lines to the text of the topic in call order. *)
Theorem publishes_are_counted base limit fs events topic msgs :
  let p := run events (init base limit fs) in
  pending_count topic p + Z.of_nat (List.length msgs) < limit →
  pending_count topic (run (publishes topic msgs) p)
  = pending_count topic p + Z.of_nat (List.length msgs)
  ∧ file_text topic (run (publishes topic msgs) p) = file_text topic p +:+ lines msgs.
Proof.
  intros p Hlen.
  destruct (publishes_below_limit base limit fs events topic msgs Hlen)
    as (Hcount & _ & Htext).
  by split.
Qed.

Lemma publishes_are_counted_witness :
  pending_count "system_status"
    (run (publishes "system_status"
            [(Example.status_message, Example.now0);
             (Example.status_message, Example.now0)])
       (run [] (init "output" 10 ∅)))
  = pending_count "system_status" (run [] (init "output" 10 ∅))
    + Z.of_nat (List.length [(Example.status_message, Example.now0);
                             (Example.status_message, Example.now0)]).
Proof.
  apply (proj1 (publishes_are_counted "output" 10 ∅ [] "system_status"
                  [(Example.status_message, Example.now0);
                   (Example.status_message, Example.now0)]
                  ltac:(vm_compute; reflexivity))).
Defined.

(** *** The loop of [flush_all] and of [close] *)

Lemma fold_handles l (handles : list (string * TextIO)) counts fs topic :
  PyDict.get (fold_left flush_all_body l (handles, counts, fs)).1.1 topic
  = match PyDict.get (reverse l) topic with
    | Some h => Some (flushed h)
    | None => PyDict.get handles topic
    end.
Proof.
  induction l as [|[k h] l IH] using rev_ind; [reflexivity|].
  rewrite fold_left_app, reverse_snoc. simpl.
  destruct (fold_left flush_all_body l (handles, counts, fs)) as [[H1 c1] f1].
  simpl in *. destruct (decide (topic = k)) as [->|Hne].
  - by rewrite get_set_eq.
  - by rewrite get_set_ne.
Qed.

Lemma fold_files l (handles : list (string * TextIO)) counts fs path :
  default "" ((fold_left flush_all_body l (handles, counts, fs)).2 !! path)
  = default "" (fs !! path) +:+ pendings_for path l.
Proof.
  revert handles counts fs. induction l as [|[k h] l IH]; intros handles counts fs.
  - simpl. by rewrite append_nil_r.
  - change (fold_left flush_all_body ((k, h) :: l) (handles, counts, fs))
      with (fold_left flush_all_body l
              (PyDict.set handles k (flushed h), <[k := 0]> counts,
               <[file_path h := default "" (fs !! file_path h) +:+ pending h]> fs)).
    rewrite IH. simpl pendings_for.
    destruct (decide (file_path h = path)) as [->|Hne].
    + rewrite lookup_insert_eq. simpl. by rewrite append_assoc.
    + by rewrite lookup_insert_ne.
Qed.

Lemma close_handles_files l (fs : gmap string string) path :
  default "" (close_handles l fs !! path)
  = default "" (fs !! path) +:+ pendings_for path l.
Proof.
  revert fs. induction l as [|[k h] l IH]; intros fs.
  - simpl. by rewrite append_nil_r.
  - unfold close_handles in *. simpl. rewrite IH.
    destruct (decide (file_path h = path)) as [->|Hne].
    + rewrite lookup_insert_eq. simpl. by rewrite append_assoc.
    + by rewrite lookup_insert_ne.
Qed.

Lemma fold_keys_NoDup l (handles : list (string * TextIO)) counts fs :
  NoDup (PyDict.keys handles) →
  NoDup (PyDict.keys (fold_left flush_all_body l (handles, counts, fs)).1.1).
Proof.
  revert handles counts fs. induction l as [|[k h] l IH]; intros handles counts fs Hnd;
    [done|].
  simpl. apply IH. by apply keys_set_NoDup.
Qed.

Lemma fold_Forall (P : string * TextIO → Prop) l handles counts fs :
  (∀ k h, P (k, h) → P (k, flushed h)) →
  Forall P l → Forall P handles →
  Forall P (fold_left flush_all_body l (handles, counts, fs)).1.1.
Proof.
  intros HP. revert handles counts fs.
  induction l as [|[k h] l IH]; intros handles counts fs Hl Hh; [done|].
  apply Forall_cons in Hl as [Hk Hl]. simpl. apply IH; [done|].
  apply Forall_set; [done|]. by apply HP.
Qed.

(** *** What the steps keep of the handles *)

Lemma keys_NoDup_step e p :
  NoDup (PyDict.keys (file_handles p)) →
  NoDup (PyDict.keys (file_handles (step e p))).
Proof.
  intros Hnd. destruct e as [topic message now|topic|]; simpl.
  - unfold publish, _get_file_handle.
    destruct (PyDict.get (file_handles p) topic) as [h|]; simpl;
      destruct (_ !! _); simpl; try destruct (bool_decide _); simpl;
      unfold flush; simpl; rewrite ?get_set_eq; simpl;
      repeat apply keys_set_NoDup; done.
  - unfold flush. destruct (PyDict.get _ _); simpl; [by apply keys_set_NoDup|done].
  - unfold flush_all.
    pose proof (fold_keys_NoDup (file_handles p) (file_handles p) (write_counts p)
                  (files p) Hnd) as H.
    by destruct (fold_left _ _ _) as [[h c] f].
Qed.

Lemma keys_NoDup_run events base limit fs :
  NoDup (PyDict.keys (file_handles (run events (init base limit fs)))).
Proof.
  induction events as [|e events IH] using rev_ind; [constructor|].
  rewrite run_events_snoc. by apply keys_NoDup_step.
Qed.

Lemma entries_ok_step e p :
  Forall (entry_ok (base_dir p)) (file_handles p) →
  match e with Publish topic _ _ => relative topic = true | _ => True end →
  Forall (entry_ok (base_dir p)) (file_handles (step e p)).
Proof.
  intros Hok He.
  assert (Hget : ∀ topic h, PyDict.get (file_handles p) topic = Some h →
                            ∀ txt, entry_ok (base_dir p)
                                     (topic, {| file_path := file_path h; pending := txt |})).
  { intros topic h Hh txt. apply get_elem_of in Hh.
    rewrite Forall_forall in Hok. apply (Hok _ Hh). }
  destruct e as [topic message now|topic|]; simpl.
  - unfold publish, _get_file_handle.
    destruct (PyDict.get (file_handles p) topic) as [h|] eqn:Hh; simpl.
    + destruct (write_counts p !! topic); simpl; try destruct (bool_decide _); simpl;
        unfold flush; simpl; rewrite ?get_set_eq; simpl;
        repeat apply Forall_set; try done; by apply (Hget topic h).
    + rewrite lookup_insert_eq. simpl. destruct (bool_decide _); simpl;
        unfold flush; simpl; rewrite ?get_set_eq; simpl;
        repeat apply Forall_set; done.
  - unfold flush. destruct (PyDict.get (file_handles p) topic) as [h|] eqn:Hh; simpl;
      [|done].
    apply Forall_set; [done|]. by apply (Hget topic h).
  - unfold flush_all.
    pose proof (fold_Forall (entry_ok (base_dir p)) (file_handles p) (file_handles p)
                  (write_counts p) (files p)) as H.
    destruct (fold_left _ _ _) as [[h c] f]. simpl in *. by apply H.
Qed.

Lemma handles_ok_step e p :
  handles_ok p →
  match e with Publish topic _ _ => relative topic = true | _ => True end →
  handles_ok (step e p).
Proof.
  intros [Hnd Hok] He. split; [by apply keys_NoDup_step|].
  rewrite base_dir_step. by apply entries_ok_step.
Qed.

Lemma handles_ok_run events base limit fs :
  publishes_relative events →
  handles_ok (run events (init base limit fs))
  ∧ base_dir (run events (init base limit fs)) = base.
Proof.
  induction events as [|e events IH] using rev_ind; intros Hrel.
  - split; [|done]. split; constructor.
  - apply Forall_app in Hrel as [Hrel He]. apply Forall_cons in He as [He _].
    destruct (IH Hrel) as [Hok Hbase].
    rewrite run_events_snoc, base_dir_step. split; [|done].
    by apply handles_ok_step.
Qed.

(** *** The text of a topic's file when the handles are as above *)

Lemma pendings_for_absent base topic (l : list (string * TextIO)) :
  relative topic = true → Forall (entry_ok base) l → topic ∉ PyDict.keys l →
  pendings_for (path_join base (topic +:+ ".log")) l = "".
Proof.
  intros Hrel. induction l as [|[k h] l IH]; intros Hok Hnot; [reflexivity|].
  apply Forall_cons in Hok as [[Hpath Hk] Hok]. simpl in *.
  apply not_elem_of_cons in Hnot as [Hne Hnot].
  rewrite decide_False; [by apply IH|].
  rewrite Hpath. intros Heq. apply Hne. symmetry. by apply (path_join_inj base).
Qed.

Lemma pendings_for_topic base topic (l : list (string * TextIO)) :
  relative topic = true → NoDup (PyDict.keys l) → Forall (entry_ok base) l →
  pendings_for (path_join base (topic +:+ ".log")) l
  = match PyDict.get l topic with Some h => pending h | None => "" end.
Proof.
  intros Hrel. induction l as [|[k h] l IH]; intros Hnd Hok; [reflexivity|].
  apply Forall_cons in Hok as [[Hpath Hk] Hok]. simpl in *.
  apply NoDup_cons in Hnd as [Hnot Hnd].
  destruct (decide (topic = k)) as [->|Hne].
  - rewrite decide_True by done.
    by rewrite (pendings_for_absent base k l Hrel Hok Hnot), append_nil_r.
  - rewrite decide_False; [by apply IH|].
    rewrite Hpath. intros Heq. apply Hne. by apply (path_join_inj base).
Qed.

Lemma text_canonical topic p :
  handles_ok p → relative topic = true →
  file_text topic p
  = default "" (files p !! path_join (base_dir p) (topic +:+ ".log"))
      +:+ match PyDict.get (file_handles p) topic with
          | Some h => pending h
          | None => ""
          end
  ∧ visible_text topic p
    = default "" (files p !! path_join (base_dir p) (topic +:+ ".log")).
Proof.
  intros [Hnd Hok] Hrel. unfold file_text, visible_text.
  destruct (PyDict.get (file_handles p) topic) as [h|] eqn:Hh.
  - apply get_elem_of in Hh. rewrite Forall_forall in Hok.
    destruct (Hok _ Hh) as [Hpath _]. simpl in Hpath. by rewrite Hpath.
  - by rewrite append_nil_r.
Qed.

Lemma flush_all_result p :
  NoDup (PyDict.keys (file_handles p)) →
  (∀ topic, PyDict.get (file_handles (flush_all p)) topic
            = flushed <$> PyDict.get (file_handles p) topic)
  ∧ (∀ topic, write_counts (flush_all p) !! topic
              = if decide (topic ∈ PyDict.keys (file_handles p)) then Some 0
                else write_counts p !! topic)
  ∧ (∀ path, default "" (files (flush_all p) !! path)
             = default "" (files p !! path) +:+ pendings_for path (file_handles p))
  ∧ base_dir (flush_all p) = base_dir p.
Proof.
  intros Hnd. unfold flush_all.
  pose proof (fold_handles (file_handles p) (file_handles p) (write_counts p) (files p))
    as Hh.
  pose proof (fold_files (file_handles p) (file_handles p) (write_counts p) (files p))
    as Hf.
  destruct (flush_all_fold (file_handles p) (file_handles p) (write_counts p) (files p))
    as (h & c & f & Heq & _ & Hin & Hout).
  rewrite Heq in *. simpl in *. repeat split.
  - intros topic. rewrite Hh, KeyValueStorePubSubMore.get_reverse by done.
    by destruct (PyDict.get (file_handles p) topic).
  - intros topic. destruct (decide _); auto.
  - exact Hf.
Qed.

(** [flush_all] in the states the sink reaches, with the files told apart
    by the text of their paths. *)
Lemma flush_all_run base limit fs events :
  let p := run events (init base limit fs) in
  (∀ topic, pending_count topic (flush_all p) = 0)
  ∧ (∀ topic, PyDict.get (file_handles (flush_all p)) topic
              = flushed <$> PyDict.get (file_handles p) topic)
  ∧ (∀ path, default "" (files (flush_all p) !! path)
             = default "" (files p !! path) +:+ pendings_for path (file_handles p))
  ∧ (∀ topic, visible_text topic (flush_all p) = file_text topic (flush_all p))
  ∧ (publishes_relative events →
     ∀ topic, relative topic = true →
              visible_text topic (flush_all p) = file_text topic p).
Proof.
  intros p.
  pose proof (keys_agree_run events _ (keys_agree_init base limit fs)) as Hkeys.
  pose proof (keys_NoDup_run events base limit fs) as Hnd.
  fold p in Hkeys, Hnd.
  destruct (flush_all_result p Hnd) as (Hh & Hc & Hf & Hb).
  repeat split.
  - intros topic. unfold pending_count. rewrite Hc.
    destruct (decide _) as [Hin|Hnot]; [done|].
    rewrite keys_get in Hnot.
    destruct (PyDict.get (file_handles p) topic) eqn:Hget; [exfalso; eauto|].
    by rewrite (keys_agree_absent topic p Hkeys Hget).
  - exact Hh.
  - exact Hf.
  - intros topic. unfold visible_text, file_text. rewrite Hh.
    destruct (PyDict.get (file_handles p) topic); simpl; [|done].
    by rewrite append_nil_r.
  - intros Hrel topic Htopic.
    destruct (handles_ok_run events base limit fs Hrel) as [Hok Hbase]. fold p in Hok, Hbase.
    destruct (text_canonical topic p Hok Htopic) as [-> _].
    assert (Hok' : handles_ok (flush_all p)) by (by apply (handles_ok_step TimerFlush)).
    destruct (text_canonical topic (flush_all p) Hok' Htopic) as [_ ->].
    rewrite Hb, Hf. f_equal. destruct Hok. by apply pendings_for_topic.
Qed.

Lemma plain_relative topic : plain topic = true → relative topic = true.
Proof.
  unfold plain, relative. destruct topic as [|c topic]; [done|]. simpl.
  by destruct (bool_decide (c = "/"%char)).
Qed.

Lemma publishes_plain_relative events :
  publishes_plain events → publishes_relative events.
Proof.
  intros Hplain. eapply Forall_impl; [exact Hplain|].
  intros [topic message now|topic|]; [|done..]. apply plain_relative.
Qed.

(** X19: the periodic flush leaves nothing pending.  In every state the
    sink reaches, after [flush_all] every counter is 0, every handle is
    the one it was with no pending text, and each topic's file shows all
    the text of the topic.  When the publishes went to topics without
    ['/'], whose files are the entries [<topic>.log] of the base
    directory, that is the text the topic had before the flush, in the
    file or pending: the flush of the other handles adds nothing to the
    topic's file. *)
Theorem timer_flush_drains base limit fs events :
  let p := run events (init base limit fs) in
  (∀ topic, pending_count topic (flush_all p) = 0)
  ∧ (∀ topic, PyDict.get (file_handles (flush_all p)) topic
              = flushed <$> PyDict.get (file_handles p) topic)
  ∧ (∀ topic, visible_text topic (flush_all p) = file_text topic (flush_all p))
  ∧ (publishes_plain events →
     ∀ topic, plain topic = true →
              visible_text topic (flush_all p) = file_text topic p).
Proof.
  intros p.
  destruct (flush_all_run base limit fs events) as (Hcount & Hh & _ & Hvis & Hrel).
  split; [exact Hcount|]. split; [exact Hh|]. split; [exact Hvis|].
  intros Hplain topic Htopic.
  apply Hrel; [by apply publishes_plain_relative|by apply plain_relative].
Qed.

Lemma timer_flush_drains_witness :
  visible_text "system_status"
    (flush_all (run [Publish "system_status" Example.status_message Example.now0]
                  (init "output" 10 ∅)))
  = file_text "system_status"
      (run [Publish "system_status" Example.status_message Example.now0]
         (init "output" 10 ∅)).
Proof.
  apply (proj2 (proj2 (proj2
           (timer_flush_drains "output" 10 ∅
              [Publish "system_status" Example.status_message Example.now0])))).
  - repeat constructor.
  - reflexivity.
Defined.

Lemma open_append_default path0 path (fs : gmap string string) :
  default "" (open_append path0 fs !! path) = default "" (fs !! path).
Proof.
  unfold open_append. destruct (fs !! path0) eqn:H0; [done|].
  destruct (decide (path = path0)) as [->|Hne].
  - by rewrite lookup_insert_eq, H0.
  - by rewrite lookup_insert_ne.
Qed.

Lemma publish_files_other topic (message : Parsing.dict) now p path :
  Forall (entry_ok (base_dir p)) (file_handles p) →
  path ≠ path_join (base_dir p) (topic +:+ ".log") →
  default "" (files (publish topic message now p).2 !! path)
  = default "" (files p !! path).
Proof.
  intros Hok Hne. unfold publish, _get_file_handle.
  destruct (PyDict.get (file_handles p) topic) as [h|] eqn:Hh; simpl.
  - assert (Hpath : file_path h = path_join (base_dir p) (topic +:+ ".log")).
    { apply get_elem_of in Hh. rewrite Forall_forall in Hok.
      by destruct (Hok _ Hh) as [Hp _]. }
    destruct (write_counts p !! topic); simpl; [|done].
    destruct (bool_decide _); simpl; [|done].
    unfold flush. simpl. rewrite get_set_eq. simpl.
    rewrite lookup_insert_ne; [done|]. by rewrite Hpath.
  - rewrite lookup_insert_eq. simpl. destruct (bool_decide _); simpl.
    + unfold flush. simpl. rewrite get_set_eq. simpl.
      rewrite lookup_insert_ne by done. apply open_append_default.
    + apply open_append_default.
Qed.

Lemma lines_for_app topic (l1 l2 : list event) :
  lines_for topic (l1 ++ l2)%list = lines_for topic l1 +:+ lines_for topic l2.
Proof.
  induction l1 as [|[t message now|t|] l1 IH]; simpl; try done.
  destruct (decide (t = topic)); [|done]. by rewrite IH, append_assoc.
Qed.

(** One step of a history, seen from the text of one topic's file. *)
Lemma step_file_text e p topic :
  keys_agree p → handles_ok p →
  match e with Publish t _ _ => relative t = true | _ => True end →
  relative topic = true →
  file_text topic (step e p) = file_text topic p +:+ lines_for topic [e].
Proof.
  intros Hkeys Hok He Htopic.
  pose proof (handles_ok_step e p Hok He) as Hok'.
  pose proof (base_dir_step e p) as Hbase.
  destruct (text_canonical topic p Hok Htopic) as [Hcanon _].
  destruct (text_canonical topic (step e p) Hok' Htopic) as [Hcanon' _].
  destruct Hok as [Hnd Hentries].
  destruct e as [t message now|t|]; simpl lines_for.
  - destruct (decide (t = topic)) as [->|Hne].
    + rewrite append_nil_r.
      by destruct (publish_spec topic message now p Hkeys) as (_ & _ & Htext & _).
    + rewrite append_nil_r, Hcanon', Hcanon, Hbase. simpl.
      destruct (publish_frame t topic message now p) as [-> _]; [done|].
      rewrite publish_files_other; [done|done|].
      intros Heq. apply Hne. symmetry. by apply (path_join_inj (base_dir p)).
  - rewrite append_nil_r.
    destruct (PyDict.get (file_handles p) t) as [h|] eqn:Hh.
    + destruct (decide (t = topic)) as [->|Hne];
        [by destruct (flush_keeps_text topic p) as [Htext _]|].
      rewrite Hcanon', Hcanon, Hbase. simpl. unfold flush. rewrite Hh. simpl.
      rewrite get_set_ne by done.
      apply get_elem_of in Hh. rewrite Forall_forall in Hentries.
      destruct (Hentries _ Hh) as [Hpath Hrel]. simpl in Hpath, Hrel.
      rewrite lookup_insert_ne; [done|].
      rewrite Hpath. intros Heq. apply Hne. by apply (path_join_inj (base_dir p)).
    + simpl. unfold flush. by rewrite Hh.
  - rewrite append_nil_r, Hcanon', Hcanon. simpl.
    destruct (flush_all_result p Hnd) as (Hh & _ & Hf & Hb).
    rewrite Hb, Hf, Hh, (pendings_for_topic _ _ _ Htopic Hnd Hentries).
    destruct (PyDict.get (file_handles p) topic); simpl; by rewrite !append_nil_r.
Qed.

(** The text of a topic over a history, with the files told apart by the
    text of their paths. *)
Lemma file_text_run base limit fs events topic :
  publishes_relative events → relative topic = true →
  file_text topic (run events (init base limit fs))
  = default "" (fs !! path_join base (topic +:+ ".log")) +:+ lines_for topic events.
Proof.
  intros Hrel Htopic. induction events as [|e events IH] using rev_ind.
  - simpl. by rewrite append_nil_r.
  - apply Forall_app in Hrel as [Hrel He]. apply Forall_cons in He as [He _].
    destruct (handles_ok_run events base limit fs Hrel) as [Hok _].
    pose proof (keys_agree_run events _ (keys_agree_init base limit fs)) as Hkeys.
    rewrite run_events_snoc, (step_file_text e _ topic Hkeys Hok He Htopic).
    by rewrite (IH Hrel), lines_for_app, append_assoc.
Qed.

(** X20: the log of a topic is its publish history.  When the publishes
    of a history go to topics without ['/'], whose files are the entries
    [<topic>.log] of the base directory, the text of such a topic, in its
    file or pending, is what the file held when the sink was made,
    followed by the lines of the publishes to that topic, in call order:
    no flush, timer run or publish to another topic loses, repeats or
    reorders a line, or adds one. *)
Theorem log_is_publish_history base limit fs events topic :
  publishes_plain events → plain topic = true →
  file_text topic (run events (init base limit fs))
  = default "" (fs !! path_join base (topic +:+ ".log")) +:+ lines_for topic events.
Proof.
  intros Hplain Htopic.
  apply file_text_run; [by apply publishes_plain_relative|by apply plain_relative].
Qed.

Lemma log_is_publish_history_witness :
  file_text "system_status"
    (run [Publish "system_status" Example.status_message Example.now0; TimerFlush;
          Publish "account_info" [] Example.now0;
          Publish "system_status" [] Example.now0]
       (init "output" 2 ∅))
  = default "" ((∅ : gmap string string) !! path_join "output" ("system_status" +:+ ".log"))
      +:+ lines_for "system_status"
            [Publish "system_status" Example.status_message Example.now0; TimerFlush;
             Publish "account_info" [] Example.now0;
             Publish "system_status" [] Example.now0].
Proof.
  apply log_is_publish_history; [|reflexivity].
  repeat constructor.
Defined.

(** The body of [close] in the states the sink reaches, with the files
    told apart by the text of their paths. *)
Lemma close_body_run base limit fs events :
  let p := run events (init base limit fs) in
  flush_task (await close p) = Cancelled
  ∧ file_handles (await close p) = []
  ∧ write_counts (await close p) = ∅
  ∧ (∀ path, default "" (files (await close p) !! path)
             = default "" (files p !! path) +:+ pendings_for path (file_handles p))
  ∧ (publishes_relative events →
     ∀ topic, relative topic = true →
              visible_text topic (await close p) = file_text topic p).
Proof.
  intros p. repeat split.
  - intros path. apply close_handles_files.
  - intros Hrel topic Htopic.
    destruct (handles_ok_run events base limit fs Hrel) as [Hok _]. fold p in Hok.
    destruct (text_canonical topic p Hok Htopic) as [-> _].
    unfold visible_text. simpl. rewrite close_handles_files.
    f_equal. destruct Hok. by apply pendings_for_topic.
Qed.

(** X21: [close], once awaited, drains the sink.  The task is cancelled
    and both dictionaries are empty; when the publishes went to topics
    without ['/'], whose files are the entries [<topic>.log] of the base
    directory, each topic's file then shows all the text the topic had,
    in the file or pending. *)
Theorem awaited_close_drains base limit fs events :
  let p := run events (init base limit fs) in
  flush_task (await close p) = Cancelled
  ∧ file_handles (await close p) = []
  ∧ write_counts (await close p) = ∅
  ∧ (publishes_plain events →
     ∀ topic, plain topic = true →
              visible_text topic (await close p) = file_text topic p).
Proof.
  intros p.
  destruct (close_body_run base limit fs events) as (Htask & Hh & Hc & _ & Hrel).
  split; [exact Htask|]. split; [exact Hh|]. split; [exact Hc|].
  intros Hplain topic Htopic.
  apply Hrel; [by apply publishes_plain_relative|by apply plain_relative].
Qed.

Lemma awaited_close_drains_witness :
  visible_text "system_status"
    (await close (run [Publish "system_status" Example.status_message Example.now0]
                    (init "output" 10 ∅)))
  = file_text "system_status"
      (run [Publish "system_status" Example.status_message Example.now0]
         (init "output" 10 ∅)).
Proof.
  apply (proj2 (proj2 (proj2
           (awaited_close_drains "output" 10 ∅
              [Publish "system_status" Example.status_message Example.now0])))).
  - repeat constructor.
  - reflexivity.
Defined.

End FilePubSubMore.


(** ** The characters of a log line *)

Module LogLineMore.
Import Json FilePubSub FilePubSubHistory StringFacts JsonFacts.

Lemma all_printable_append (s1 s2 : string) :
  all_printable (s1 +:+ s2) = all_printable s1 && all_printable s2.
Proof.
  induction s1 as [|a s1 IH]; [reflexivity|].
  rewrite append_cons. simpl. by rewrite IH, andb_assoc.
Qed.

Lemma escape_char_printable c : all_printable (escape_char c) = true.
Proof. destruct c as [[] [] [] [] [] [] [] []]; reflexivity. Qed.

Lemma escape_printable s : all_printable (escape s) = true.
Proof.
  induction s as [|c s IH]; [reflexivity|].
  simpl escape. by rewrite all_printable_append, escape_char_printable, IH.
Qed.

Lemma encode_string_printable s : all_printable (encode_string s) = true.
Proof.
  unfold encode_string. simpl. by rewrite all_printable_append, escape_printable.
Qed.

Lemma digits_printable d : all_printable (NilEmpty.string_of_uint d) = true.
Proof. induction d; simpl; auto. Qed.

Lemma join_printable (l : list string) :
  Forall (λ s, all_printable s = true) l → all_printable (join ", " l) = true.
Proof.
  intros Hall. induction Hall as [|a l Ha Hall IH]; [reflexivity|].
  destruct l as [|b l]; [exact Ha|].
  change (join ", " (a :: b :: l)) with (a +:+ ", " +:+ join ", " (b :: l)).
  by rewrite !all_printable_append, Ha, IH.
Qed.

Lemma dumps_printable v : all_printable (dumps v) = true.
Proof.
  induction v as [| b | n | str | l HP | d HP] using value_rect'.
  - reflexivity.
  - by destruct b.
  - destruct n; simpl; auto using digits_printable.
  - apply encode_string_printable.
  - change (dumps (VList l)) with ("[" +:+ join ", " (map dumps l) +:+ "]").
    rewrite !all_printable_append, join_printable; [reflexivity|].
    by apply Forall_fmap.
  - change (dumps (VDict d))
      with ("{" +:+ join ", " (map (λ kv, encode_string kv.1 +:+ ": " +:+ dumps kv.2) d)
                +:+ "}").
    rewrite !all_printable_append, join_printable; [reflexivity|].
    apply Forall_fmap. eapply Forall_impl; [exact HP|]. intros kv Hkv.
    cbv beta. unfold compose.
    by rewrite !all_printable_append, encode_string_printable, Hkv.
Qed.

Lemma digit_printable n : printable (Datetime.digit n) = true.
Proof.
  pose proof (is_digit_digit n) as Hd. revert Hd.
  unfold Datetime.is_digit, printable. generalize (N_of_ascii (Datetime.digit n)).
  intros m Hm. apply andb_true_iff in Hm as [H1 H2].
  apply N.leb_le in H1, H2. apply andb_true_iff. split; apply N.leb_le; lia.
Qed.

Lemma strftime_printable now : all_printable (Datetime.strftime now) = true.
Proof.
  cbv [Datetime.strftime Datetime.four_digits Datetime.two_digits String.append
       all_printable].
  rewrite !digit_printable. reflexivity.
Qed.

(** X22: a log line is printable ASCII followed by one newline.  Whatever
    the time and whatever strings the message holds, every character of
    the line [publish] writes, but the newline that ends it, lies in
    U+0020..U+007E: [json.dumps] escapes the quote, the backslash, the
    control characters and the code points above U+007E. *)
Theorem log_line_is_ascii now (message : Parsing.dict) :
  ∃ body, log_line now message = body +:+ String newline ""
          ∧ all_printable body = true.
Proof.
  exists (Datetime.strftime now +:+ " - " +:+ dumps (VDict message)). split.
  - unfold log_line. by rewrite !append_assoc.
  - by rewrite !all_printable_append, strftime_printable, dumps_printable.
Qed.

End LogLineMore.


(** ** The fan-out publisher when the table sink raises *)

Module InMemoryWithLogPublisherMore.
Import InMemoryWithLogPublisher.

(** X23: the two sinks are not written as one.  In a state of the log
    sink in which the handles and the counters have the same keys, a
    [publish] that the table sink answers with an exception raises that
    exception, and yet the line is in the text of the topic's log file,
    and the store holds what the table sink had written before it raised;
    the log sink is left in a state of the same kind. *)
Theorem failed_publish_is_logged topic message now p e :
  FilePubSubRuns.keys_agree (file_backed p) →
  (KeyValueStorePubSub.publish topic message (in_memory p)).1 = Raise e →
  (publish topic message now p).1 = Raise e
  ∧ FilePubSub.file_text topic (file_backed (publish topic message now p).2)
    = FilePubSub.file_text topic (file_backed p) +:+ FilePubSub.log_line now message
  ∧ in_memory (publish topic message now p).2
    = (KeyValueStorePubSub.publish topic message (in_memory p)).2
  ∧ FilePubSubRuns.keys_agree (file_backed (publish topic message now p).2).
Proof.
  intros Hkeys Hraise.
  destruct (FilePubSubFacts.publish_spec topic message now _ Hkeys) as (Hok & _ & Htext & _).
  pose proof (FilePubSubFacts.keys_agree_publish topic message now _ Hkeys) as Hkeys'.
  unfold publish.
  destruct (FilePubSub.publish topic message now (file_backed p)) as [[[]|e'] fb];
    [|discriminate Hok].
  destruct (KeyValueStorePubSub.publish topic message (in_memory p)) as [r kv].
  simpl in *. by subst r.
Qed.

Lemma failed_publish_is_logged_witness :
  (publish "exchange_info" KeyValueStorePubSub.sample_response Example.now0
     Example.fresh).1 = Raise (KeyError "rateLimits")
  ∧ FilePubSub.file_text "exchange_info"
      (file_backed (publish "exchange_info" KeyValueStorePubSub.sample_response
                      Example.now0 Example.fresh).2)
    = FilePubSub.file_text "exchange_info" (file_backed Example.fresh)
        +:+ FilePubSub.log_line Example.now0 KeyValueStorePubSub.sample_response.
Proof.
  destruct (failed_publish_is_logged "exchange_info" KeyValueStorePubSub.sample_response
              Example.now0 Example.fresh (KeyError "rateLimits"))
    as (H1 & H2 & _).
  - apply FilePubSubFacts.keys_agree_init.
  - reflexivity.
  - split; [exact H1|exact H2].
Defined.

End InMemoryWithLogPublisherMore.


(** ** What the web server answers after a publish *)

Module ExchangeMetadataWebServerMore.
Import Parsing ParsingShapes Storage KeyValueStorePubSub TableItems.
Import ExchangeMetadataWebServer.
Import StorageFacts StorageMore KeyValueStorePubSubFacts ParsingMore.
Import KeyValueStorePubSubMore.

Lemma symbol_entry_truthy x k r : symbol_entry x = Ok (k, r) → truthy r = true.
Proof.
  unfold symbol_entry. destruct x as [| | | | |d]; try discriminate. simpl.
  destruct (py_iter _) as [filter_infos|e]; simpl; [|discriminate].
  destruct (for_each filter_body filter_infos filter_vars_init) as [fv|e]; simpl;
    [|discriminate].
  destruct (py_hash _) as [k'|e]; simpl; [|discriminate].
  by intros [= <- <-].
Qed.

Lemma symbol_loop_truthy (l : list value) (acc m : list (hkey * value)) :
  for_each symbol_body l acc = Ok m →
  Forall (λ kr, truthy kr.2 = true) acc → Forall (λ kr, truthy kr.2 = true) m.
Proof.
  revert acc. induction l as [|x l IH]; intros acc; simpl.
  - by intros [= ->].
  - rewrite symbol_body_entry.
    destruct (symbol_entry x) as [[k r]|e] eqn:Hx; simpl; [|discriminate].
    intros Hrun Hacc. apply (IH _ Hrun). apply Forall_forall. intros kr Hin.
    apply elem_of_set in Hin as [->|Hin].
    + apply (symbol_entry_truthy _ _ _ Hx).
    + rewrite Forall_forall in Hacc. by apply Hacc.
Qed.

Lemma parsed_record_truthy (message : dict) infos k r :
  parse_symbols_info message = Ok infos → PyDict.get infos k = Some r →
  truthy r = true.
Proof.
  intros Hparse Hget.
  pose proof (parse_symbols_info_NoDup _ _ Hparse) as Hnd.
  apply (get_elem_of_iff _ _ _ Hnd) in Hget.
  revert Hparse. unfold parse_symbols_info.
  destruct (py_iter _) as [l|e]; simpl; [|discriminate].
  intros Hrun.
  pose proof (symbol_loop_truthy _ _ _ Hrun (Forall_nil_2 _)) as Hall.
  rewrite Forall_forall in Hall. apply (Hall _ Hget).
Qed.

Lemma run_table_stays ops t (s : storage) :
  is_Some (s !! t) → is_Some (run ops s !! t).
Proof.
  intros Hs. induction ops as [|o ops IH] using rev_ind; [done|].
  rewrite run_ops_snoc, apply_table_exists. by left.
Qed.

(** X24: [GET /rate_limits] after a publish.  After an ['exchange_info']
    message that parses and has ["rateLimits"], the handler returns the
    rate limits as they came, but for a [null], on which it raises 404 as
    if nothing had been published; a publish on any other topic leaves the
    answer as it was; and with no table ['exchange_info'] the answer is
    404. *)
Theorem rate_limits_endpoint (s : storage) :
  (read_all "exchange_info" s = None →
   get_rate_limits s = HTTPException 404 "No data available")
  ∧ (∀ (message : dict) infos rate_limits,
       parse_symbols_info message = Ok infos →
       PyDict.get message "rateLimits" = Some rate_limits →
       get_rate_limits (publish "exchange_info" message s).2
       = if is_none rate_limits then HTTPException 404 "No data available"
         else Return rate_limits)
  ∧ (∀ topic (message : dict), topic ≠ "exchange_info" →
       get_rate_limits (publish topic message s).2 = get_rate_limits s).
Proof.
  repeat split.
  - unfold read_all, get_rate_limits, read. by intros ->.
  - intros message infos rate_limits Hparse Hrl.
    unfold get_rate_limits, publish, publish_exchange_info.
    rewrite decide_True by done. rewrite Hparse, Hrl. simpl.
    by rewrite read_write_same.
  - intros topic message Hne. unfold get_rate_limits, read.
    rewrite publish_keeps_table; [done|done|by right].
Qed.

Lemma rate_limits_endpoint_witness :
  get_rate_limits
    (publish "exchange_info" (("rateLimits", VList [VInt 1200]) :: sample_response) init).2
  = Return (VList [VInt 1200]).
Proof.
  apply (proj1 (proj2 (rate_limits_endpoint init))
           (("rateLimits", VList [VInt 1200]) :: sample_response)
           [(KStr "BTCUSDT", btcusdt_record (VStr "TRADING") (VStr "BTC") (VStr "USDT"))]
           (VList [VInt 1200]) eq_refl eq_refl).
Defined.

Lemma read_symbol_after_publish symbol (s : storage) (message : dict) infos :
  parse_symbols_info message = Ok infos →
  read "symbols" (KStr symbol) (publish "exchange_info" message s).2
  = match PyDict.get infos (KStr symbol) with
    | Some r => r
    | None => read "symbols" (KStr symbol) s
    end.
Proof.
  intros Hparse.
  pose proof (parse_symbols_info_NoDup _ _ Hparse) as Hnd.
  unfold publish, publish_exchange_info. rewrite decide_True by done.
  rewrite Hparse. destruct (PyDict.get message "rateLimits") as [rl|]; simpl.
  - rewrite read_write_other_table by done.
    by rewrite read_write_items, get_reverse.
  - by rewrite read_write_items, get_reverse.
Qed.

(** X25: [GET /symbols/{symbol}] after a publish.  After an
    ['exchange_info'] message that parses, with or without ["rateLimits"],
    the handler returns the parsed record of every symbol the message
    bound, and answers as before for every other symbol; a publish on any
    other topic leaves every answer as it was.  The handler tests the
    stored value for truth: a symbol stored with a false value is answered
    404 as if it were not there. *)
Theorem symbol_endpoint symbol (s : storage) :
  (∀ (message : dict) infos r,
     parse_symbols_info message = Ok infos →
     PyDict.get infos (KStr symbol) = Some r →
     get_symbol_info symbol (publish "exchange_info" message s).2 = Return r)
  ∧ (∀ (message : dict) infos,
       parse_symbols_info message = Ok infos →
       PyDict.get infos (KStr symbol) = None →
       get_symbol_info symbol (publish "exchange_info" message s).2
       = get_symbol_info symbol s)
  ∧ (∀ topic (message : dict), topic ≠ "exchange_info" →
       get_symbol_info symbol (publish topic message s).2 = get_symbol_info symbol s)
  ∧ (∀ v, get_symbol_info symbol (write "symbols" (KStr symbol) v s)
          = if truthy v then Return v else HTTPException 404 "Symbol not found").
Proof.
  pose proof (read_symbol_after_publish symbol s) as Hread.
  repeat split.
  - intros message infos r Hparse Hget. unfold get_symbol_info.
    rewrite (Hread _ _ Hparse), Hget.
    by rewrite (parsed_record_truthy _ _ _ _ Hparse Hget).
  - intros message infos Hparse Hget. unfold get_symbol_info.
    by rewrite (Hread _ _ Hparse), Hget.
  - intros topic message Hne.
    destruct (decide (topic = "symbols")) as [->|Hs]; [reflexivity|].
    unfold get_symbol_info, read.
    rewrite publish_keeps_table; [done|done|by right].
  - intros v. unfold get_symbol_info. rewrite read_write_same.
    by destruct (truthy v).
Qed.

Lemma symbol_endpoint_witness :
  get_symbol_info "BTCUSDT" (publish "exchange_info" sample_response init).2
  = Return (btcusdt_record (VStr "TRADING") (VStr "BTC") (VStr "USDT")).
Proof.
  apply (proj1 (symbol_endpoint "BTCUSDT" init) sample_response
           [(KStr "BTCUSDT", btcusdt_record (VStr "TRADING") (VStr "BTC") (VStr "USDT"))]
           (btcusdt_record (VStr "TRADING") (VStr "BTC") (VStr "USDT"))
           eq_refl eq_refl).
Defined.

(** One of the two handlers that return a whole table. *)
Lemma table_endpoint_after_publish t (message : dict) (s : storage) :
  t ∈ ["system_status"; "account_info"] →
  (publish t message s).2 !! t
  = match message with
    | [] => s !! t
    | _ => Some (insert_items (items message) (default ∅ (s !! t)))
    end.
Proof.
  intros Ht. unfold publish, publish_exchange_info, publish_status_or_account.
  rewrite decide_False.
  - rewrite bool_decide_eq_true_2 by done. simpl.
    rewrite write_items_lookup, decide_True by done. by destruct message.
  - intros ->. repeat (apply elem_of_cons in Ht as [Heq|Ht]; [discriminate Heq|]).
    inversion Ht.
Qed.

(** X26: [GET /exchange_status] and [GET /account_info] after a publish.
    [/exchange_status] returns the table ['system_status'], and
    [/account_info] the table ['account_info']: after a publish of a
    message with at least one key on that topic, the table that was there
    with the message's keys bound to the message's values; after an empty
    message, and after a publish on any other topic, ['exchange_info']
    among them, the answer it gave before, 404 when the table was never
    written.  Once a handler has returned a table, no call of the
    store's interface brings the 404 back. *)
Theorem table_endpoints (s : storage) :
  (∀ (message : dict), message ≠ [] →
     get_all_exchange_info (publish "system_status" message s).2
     = Return (insert_items (items message)
                 (default ∅ (read_all "system_status" s)))
     ∧ get_all_account_info (publish "account_info" message s).2
       = Return (insert_items (items message)
                   (default ∅ (read_all "account_info" s))))
  ∧ get_all_exchange_info (publish "system_status" [] s).2 = get_all_exchange_info s
  ∧ get_all_account_info (publish "account_info" [] s).2 = get_all_account_info s
  ∧ (∀ topic (message : dict), topic ≠ "system_status" →
       get_all_exchange_info (publish topic message s).2 = get_all_exchange_info s)
  ∧ (∀ topic (message : dict), topic ≠ "account_info" →
       get_all_account_info (publish topic message s).2 = get_all_account_info s)
  ∧ (read_all "system_status" s = None →
     get_all_exchange_info s = HTTPException 404 "No data available")
  ∧ (∀ ops tbl, get_all_exchange_info s = Return tbl →
       ∃ tbl', get_all_exchange_info (run ops s) = Return tbl')
  ∧ (∀ ops tbl, get_all_account_info s = Return tbl →
       ∃ tbl', get_all_account_info (run ops s) = Return tbl').
Proof.
  repeat split.
  - unfold get_all_exchange_info, read_all.
    rewrite table_endpoint_after_publish by (apply list_elem_of_here).
    by destruct message.
  - unfold get_all_account_info, read_all.
    rewrite table_endpoint_after_publish
      by (apply list_elem_of_further, list_elem_of_here).
    by destruct message.
  - intros topic message Hne. unfold get_all_exchange_info, read_all.
    rewrite publish_keeps_table; [done|done|by left].
  - intros topic message Hne. unfold get_all_account_info, read_all.
    rewrite publish_keeps_table; [done|done|by left].
  - unfold get_all_exchange_info. by intros ->.
  - intros ops tbl. unfold get_all_exchange_info, read_all.
    destruct (s !! "system_status") as [tbl0|] eqn:Hs; [|discriminate]. intros _.
    destruct (run_table_stays ops "system_status" s) as [tbl' Htbl']; [by rewrite Hs|].
    exists tbl'. by rewrite Htbl'.
  - intros ops tbl. unfold get_all_account_info, read_all.
    destruct (s !! "account_info") as [tbl0|] eqn:Hs; [|discriminate]. intros _.
    destruct (run_table_stays ops "account_info" s) as [tbl' Htbl']; [by rewrite Hs|].
    exists tbl'. by rewrite Htbl'.
Qed.

Lemma table_endpoints_witness :
  get_all_exchange_info (publish "system_status" Example.status_message init).2
  = Return (insert_items (items Example.status_message)
              (default ∅ (read_all "system_status" init))).
Proof.
  apply (proj1 (proj1 (table_endpoints init) Example.status_message
                  ltac:(discriminate))).
Defined.

End ExchangeMetadataWebServerMore.


(** ** The polling loop, from the fetch to the server's answer *)

Module BinanceExchangeMetadataPollerMore.
Import Parsing Storage TableItems InMemoryWithLogPublisher.
Import ExchangeMetadataWebServer BinanceExchangeMetadataPoller.
Import KeyValueStorePubSubMore ExchangeMetadataWebServerMore.

Lemma keys_agree_flushes n p :
  FilePubSubRuns.keys_agree (file_backed p) →
  FilePubSubRuns.keys_agree (file_backed (flushes n p)).
Proof.
  intros Hkeys. simpl. induction n as [|n IH]; [done|].
  simpl. by apply FilePubSubFacts.keys_agree_flush_all.
Qed.

(** In the states the log sink reaches, the fan-out [publish] has the
    result and the store of the table sink. *)
Lemma publish_if_store topic answer now p :
  FilePubSubRuns.keys_agree (file_backed p) →
  (publish_if topic answer now p).1 = (store_if topic answer (in_memory p)).1
  ∧ in_memory (publish_if topic answer now p).2 = (store_if topic answer (in_memory p)).2
  ∧ FilePubSubRuns.keys_agree (file_backed (publish_if topic answer now p).2).
Proof.
  intros Hkeys. unfold publish_if, store_if.
  destruct (to_publish answer) as [message|]; [|done].
  destruct (FilePubSubFacts.publish_spec topic message now _ Hkeys) as (Hok & _).
  pose proof (FilePubSubFacts.keys_agree_publish topic message now _ Hkeys) as Hkeys'.
  unfold publish.
  destruct (FilePubSub.publish topic message now (file_backed p)) as [[[]|e] fb];
    [|discriminate Hok].
  by destruct (KeyValueStorePubSub.publish topic message (in_memory p)) as [r kv].
Qed.

Lemma store_if_status topic answer (s : storage) :
  topic ∈ ["system_status"; "account_info"] →
  (store_if topic answer s).1 = Ok tt
  ∧ (store_if topic answer s).2 !! topic
    = match to_publish answer with
      | Some message => Some (insert_items (KeyValueStorePubSub.items message)
                                (default ∅ (s !! topic)))
      | None => s !! topic
      end
  ∧ (∀ t, t ≠ topic → (store_if topic answer s).2 !! t = s !! t).
Proof.
  intros Htopic. unfold store_if.
  assert (Hne : topic ≠ "exchange_info").
  { intros ->. repeat (apply elem_of_cons in Htopic as [Heq|Htopic];
                       [discriminate Heq|]). inversion Htopic. }
  destruct answer as [[|kv d]|]; simpl; try done.
  repeat split.
  - unfold KeyValueStorePubSub.publish, KeyValueStorePubSub.publish_exchange_info,
      KeyValueStorePubSub.publish_status_or_account.
    rewrite decide_False by done. by destruct (bool_decide _).
  - by rewrite table_endpoint_after_publish.
  - intros t Ht. apply publish_keeps_table; [done|by right].
Qed.

(** One turn, seen from the table store. *)
Lemma poll_turn_store f p :
  FilePubSubRuns.keys_agree (file_backed p) →
  (poll_turn f p).1 = (store_if "exchange_info" (exchange_info f) (in_memory p)).1
  ∧ in_memory (poll_turn f p).2
    = match store_if "exchange_info" (exchange_info f) (in_memory p) with
      | (Ok _, s1) =>
          (store_if "system_status" (system_status f)
             (store_if "account_info" (account_info f) s1).2).2
      | (Raise _, s1) => s1
      end
  ∧ FilePubSubRuns.keys_agree (file_backed (poll_turn f p).2).
Proof.
  intros Hkeys. unfold poll_turn.
  pose proof (keys_agree_flushes (flushes_in_exchange_info f) p Hkeys) as H0.
  destruct (publish_if_store "exchange_info" (exchange_info f) (exchange_info_time f)
              _ H0) as (Hr1 & Hs1 & H1).
  destruct (publish_if "exchange_info" _ _ _) as [[[]|e] p1]; simpl in *;
    destruct (store_if "exchange_info" _ _) as [r1 s1]; simpl in *; subst r1 s1;
    [|done].
  destruct (publish_if_store "account_info" (account_info f) (account_info_time f)
              _ H1) as (Hr2 & Hs2 & H2).
  destruct (store_if_status "account_info" (account_info f) (in_memory p1)) as [Hok2 _];
    [apply list_elem_of_further, list_elem_of_here|].
  rewrite Hok2 in Hr2.
  destruct (publish_if "account_info" _ _ _) as [[[]|e] p2]; simpl in *;
    [|discriminate Hr2].
  pose proof (keys_agree_flushes (flushes_in_system_status f) p2 H2) as H3.
  destruct (publish_if_store "system_status" (system_status f) (system_status_time f)
              _ H3) as (Hr4 & Hs4 & H4).
  destruct (store_if_status "system_status" (system_status f) (in_memory p2)) as [Hok4 _];
    [apply list_elem_of_here|].
  simpl in Hr4, Hs4. rewrite Hok4 in Hr4.
  destruct (publish_if "system_status" _ _ _) as [[[]|e] p4]; simpl in *;
    [|discriminate Hr4].
  split; [done|]. split.
  - by rewrite Hs4, Hs2.
  - by apply (keys_agree_flushes _ p4).
Qed.


Lemma store_if_exchange_keeps answer (s : storage) t :
  t ≠ "exchange_info" → t ≠ "symbols" →
  (store_if "exchange_info" answer s).2 !! t = s !! t.
Proof.
  intros He Hs. unfold store_if. destruct (to_publish answer) as [message|]; [|done].
  apply publish_keeps_table; [done|by left].
Qed.

(** The four tables after a turn that did not raise. *)
Lemma poll_turn_tables f p :
  FilePubSubRuns.keys_agree (file_backed p) → (poll_turn f p).1 = Ok tt →
  in_memory (poll_turn f p).2 !! "exchange_info"
  = (store_if "exchange_info" (exchange_info f) (in_memory p)).2 !! "exchange_info"
  ∧ in_memory (poll_turn f p).2 !! "symbols"
    = (store_if "exchange_info" (exchange_info f) (in_memory p)).2 !! "symbols"
  ∧ in_memory (poll_turn f p).2 !! "account_info"
    = match to_publish (account_info f) with
      | Some message => Some (insert_items (KeyValueStorePubSub.items message)
                                (default ∅ (in_memory p !! "account_info")))
      | None => in_memory p !! "account_info"
      end
  ∧ in_memory (poll_turn f p).2 !! "system_status"
    = match to_publish (system_status f) with
      | Some message => Some (insert_items (KeyValueStorePubSub.items message)
                                (default ∅ (in_memory p !! "system_status")))
      | None => in_memory p !! "system_status"
      end.
Proof.
  intros Hkeys Hok. destruct (poll_turn_store f p Hkeys) as (Hr & Hs & _).
  rewrite Hok in Hr. rewrite Hs.
  pose proof (store_if_exchange_keeps (exchange_info f) (in_memory p)) as Hkeep.
  destruct (store_if "exchange_info" (exchange_info f) (in_memory p)) as [[[]|e] s1];
    [|discriminate Hr].
  simpl in *.
  destruct (store_if_status "account_info" (account_info f) s1)
    as (_ & Hacc & Hacc'); [apply list_elem_of_further, list_elem_of_here|].
  destruct (store_if_status "system_status" (system_status f)
              (store_if "account_info" (account_info f) s1).2)
    as (_ & Hst & Hst'); [apply list_elem_of_here|].
  repeat split.
  - by rewrite Hst', Hacc'.
  - by rewrite Hst', Hacc'.
  - by rewrite Hst', Hacc, Hkeep.
  - by rewrite Hst, Hacc', Hkeep.
Qed.

(** X28: from the fetch to the server's answer.  After a turn of the
    polling loop that did not raise, in the states the log sink reaches:
    [GET /exchange_status] and [GET /account_info] return the table of
    before the turn with the keys of the turn's answer bound to its
    values, and answer as before when the answer was [None] or empty;
    [GET /rate_limits] and [GET /symbols/{symbol}] answer from the
    turn's ['exchange_info'] answer, and as before when there was
    none. *)
Theorem turn_reaches_the_server f p :
  FilePubSubRuns.keys_agree (file_backed p) → (poll_turn f p).1 = Ok tt →
  get_all_exchange_info (in_memory (poll_turn f p).2)
  = match to_publish (system_status f) with
    | Some message =>
        Return (insert_items (KeyValueStorePubSub.items message)
                  (default ∅ (read_all "system_status" (in_memory p))))
    | None => get_all_exchange_info (in_memory p)
    end
  ∧ get_all_account_info (in_memory (poll_turn f p).2)
    = match to_publish (account_info f) with
      | Some message =>
          Return (insert_items (KeyValueStorePubSub.items message)
                    (default ∅ (read_all "account_info" (in_memory p))))
      | None => get_all_account_info (in_memory p)
      end
  ∧ (to_publish (exchange_info f) = None →
     get_rate_limits (in_memory (poll_turn f p).2) = get_rate_limits (in_memory p)
     ∧ ∀ symbol, get_symbol_info symbol (in_memory (poll_turn f p).2)
                 = get_symbol_info symbol (in_memory p))
  ∧ (∀ message infos rate_limits,
       to_publish (exchange_info f) = Some message →
       parse_symbols_info message = Ok infos →
       PyDict.get message "rateLimits" = Some rate_limits →
       get_rate_limits (in_memory (poll_turn f p).2)
       = (if is_none rate_limits then HTTPException 404 "No data available"
          else Return rate_limits)
       ∧ ∀ symbol r, PyDict.get infos (KStr symbol) = Some r →
                     get_symbol_info symbol (in_memory (poll_turn f p).2) = Return r).
Proof.
  intros Hkeys Hok.
  destruct (poll_turn_tables f p Hkeys Hok) as (Hex & Hsym & Hacc & Hst).
  split; [|split; [|split]].
  - unfold get_all_exchange_info, read_all. rewrite Hst.
    by destruct (to_publish (system_status f)).
  - unfold get_all_account_info, read_all. rewrite Hacc.
    by destruct (to_publish (account_info f)).
  - intros Hnone. unfold store_if in Hex, Hsym. rewrite Hnone in Hex, Hsym.
    simpl in Hex, Hsym. split.
    + unfold get_rate_limits, read. by rewrite Hex.
    + intros symbol. unfold get_symbol_info, read. by rewrite Hsym.
  - intros message infos rate_limits Hsome Hparse Hrl.
    unfold store_if in Hex, Hsym. rewrite Hsome in Hex, Hsym. split.
    + unfold get_rate_limits, read. rewrite Hex.
      unfold KeyValueStorePubSub.publish, KeyValueStorePubSub.publish_exchange_info.
      rewrite decide_True by done. rewrite Hparse, Hrl. simpl.
      fold (read "exchange_info" (KStr "rateLimits")
              (write "exchange_info" (KStr "rateLimits") rate_limits
                 (KeyValueStorePubSub.write_items "symbols" infos (in_memory p)))).
      by rewrite KeyValueStorePubSubFacts.read_write_same.
    + intros symbol r Hget. unfold get_symbol_info, read. rewrite Hsym.
      fold (read "symbols" (KStr symbol)
              (KeyValueStorePubSub.publish "exchange_info" message (in_memory p)).2).
      rewrite (read_symbol_after_publish _ _ _ _ Hparse), Hget.
      by rewrite (parsed_record_truthy _ _ _ _ Hparse Hget).
Qed.

Lemma turn_reaches_the_server_witness :
  get_all_exchange_info (in_memory (poll_turn PollerExample.good_turn Example.fresh).2)
  = Return (insert_items (KeyValueStorePubSub.items Example.status_message)
              (default ∅ (read_all "system_status" (in_memory Example.fresh))))
  ∧ get_all_account_info (in_memory (poll_turn PollerExample.good_turn Example.fresh).2)
    = HTTPException 404 "No data available".
Proof.
  destruct (turn_reaches_the_server PollerExample.good_turn Example.fresh
              (FilePubSubFacts.keys_agree_init _ _ _) eq_refl) as (Hst & Hacc & _).
  split; [exact Hst|exact Hacc].
Defined.

End BinanceExchangeMetadataPollerMore.
